(** * SSO reconciliation, session resolution and the session gate

    A shallow embedding of three request handlers of the application:

    - [Xsuaa.GET]      app/api/auth/xsuaa/route.ts   (the SSO callback)
    - [Me.GET]         app/api/me/route.ts           (session resolution)
    - [Gate.middleware] middleware.ts                (the session gate)

    together with the part of lib/env.ts and of lib/db/schema.ts they use.

    Conventions.  A JavaScript value that is [string | undefined] is an
    [option string]; a [Date] is its number of milliseconds since the epoch,
    a [Z]; the clock and [crypto.getRandomValues] are streams owned by the
    world, read through a cursor.  The three tables are lists of rows in
    table order.  A handler is a computation of the monad [M], which threads
    the world and may throw; a throw keeps every write made before it, as
    the handlers run their statements outside any transaction.

    Left out: what [console.error] prints; the resolution and encoding of
    URLs, which are kept as their parts; the decoding of the identity token,
    of which the handler sees the outcome; failures of the connection to
    the database.  The claims of the identity token are taken to be
    strings when present, and strings are sequences of code units below
    256. *)

From Stdlib Require Import String Ascii List ZArith NArith Bool Lia.
Import ListNotations.
Local Open Scope string_scope.

(** ** JavaScript strings and the operators the handlers use *)

Module Js.

(** [!!v] for [v : string | undefined]. *)
Definition truthy (v : option string) : bool :=
  match v with
  | Some s => negb (s =? "")
  | None => false
  end.

(** [a || b]. *)
Definition or (a b : option string) : option string :=
  if truthy a then a else b.

(** [a || b] where [b] is a string. *)
Definition or_str (a : option string) (b : string) : string :=
  match a with
  | Some s => if s =? "" then b else s
  | None => b
  end.

(** [`${v}`]: an undefined value is rendered as the text [undefined]. *)
Definition template (v : option string) : string :=
  match v with
  | Some s => s
  | None => "undefined"
  end.

(** White space of [String.prototype.trim], for code units below 256. *)
Definition is_space (c : ascii) : bool :=
  let n := nat_of_ascii c in
  ((9 <=? n) && (n <=? 13) || (n =? 32) || (n =? 160))%nat.

Fixpoint trimStart (s : string) : string :=
  match s with
  | String c r => if is_space c then trimStart r else s
  | EmptyString => EmptyString
  end.

Fixpoint trimEnd (s : string) : string :=
  match s with
  | String c r =>
      match trimEnd r with
      | EmptyString => if is_space c then EmptyString else String c EmptyString
      | r' => String c r'
      end
  | EmptyString => EmptyString
  end.

Definition trim (s : string) : string := trimEnd (trimStart s).

(** [s.split(sep)[0]] for a one-character separator. *)
Fixpoint split_head (sep : ascii) (s : string) : string :=
  match s with
  | String c r => if Ascii.eqb c sep then EmptyString else String c (split_head sep r)
  | EmptyString => EmptyString
  end.

(** [s.includes(c)] for a one-character needle. *)
Fixpoint includes (c : ascii) (s : string) : bool :=
  match s with
  | String d r => Ascii.eqb d c || includes c r
  | EmptyString => false
  end.

(** [s.startsWith(p)]. *)
Definition startsWith (s p : string) : bool := String.prefix p s.

End Js.

(** ** lib/db/schema.ts *)

Module users.
Record row := {
  id : string;
  name : string;
  email : string;
  emailVerified : bool;
  image : option string;
  xsuaaSubject : option string;
  createdAt : Z;
  updatedAt : Z
}.

(** [{ ...r, xsuaaSubject }], also the row after
    [SET xsuaa_subject = xsuaaSubject]. *)
Definition with_subject (s : option string) (r : row) : row :=
  {| id := id r; name := name r; email := email r;
     emailVerified := emailVerified r; image := image r;
     xsuaaSubject := s;
     createdAt := createdAt r; updatedAt := updatedAt r |}.
End users.

Module sessions.
Record row := {
  id : string;
  userId : string;
  token : string;
  expiresAt : Z;
  ipAddress : option string;
  userAgent : option string;
  createdAt : Z;
  updatedAt : Z
}.
End sessions.

Module accounts.
Record row := {
  id : string;
  userId : string;
  accountId : string;
  providerId : string;
  accessToken : option string;
  refreshToken : option string;
  accessTokenExpiresAt : option Z;
  createdAt : Z;
  updatedAt : Z
}.
End accounts.

Record Store := {
  users_table : list users.row;
  sessions_table : list sessions.row;
  accounts_table : list accounts.row
}.

(** Uniqueness of a column: no value occurs twice. *)
Fixpoint distinct (l : list string) : bool :=
  match l with
  | [] => true
  | x :: r => negb (existsb (String.eqb x) r) && distinct r
  end.

(** The non-null values of [users.xsuaa_subject], in table order. *)
Definition subjects (t : list users.row) : list string :=
  flat_map (fun r => match users.xsuaaSubject r with
                     | Some s => [s]
                     | None => []
                     end) t.

(** [users]: primary key [id], [email] unique, [xsuaa_subject] unique
    (a unique column admits any number of nulls). *)
Definition users_constraints (t : list users.row) : bool :=
  distinct (map users.id t) && distinct (map users.email t)
  && distinct (subjects t).

(** [sessions]: primary key [id], [token] unique, [user_id] references
    [users.id]. *)
Definition sessions_constraints (us : list users.row) (t : list sessions.row) : bool :=
  distinct (map sessions.id t) && distinct (map sessions.token t)
  && forallb (fun r => existsb (fun u => users.id u =? sessions.userId r) us) t.

(** [accounts]: primary key [id], [user_id] references [users.id]. *)
Definition accounts_constraints (us : list users.row) (t : list accounts.row) : bool :=
  distinct (map accounts.id t)
  && forallb (fun r => existsb (fun u => users.id u =? accounts.userId r) us) t.

(** A store the database can be in. *)
Definition store_ok (s : Store) : Prop :=
  users_constraints (users_table s) = true
  /\ sessions_constraints (users_table s) (sessions_table s) = true
  /\ accounts_constraints (users_table s) (accounts_table s) = true.

(** ** The world: store, statement journal, clock and random source *)

Inductive Event :=
| SelectUserBySubject (s : option string)
| SelectUserByEmail (e : string)
| SelectUserById (i : string)
| SelectSessionByToken (t : string)
| UpdateUserSubject (i : string) (s : option string)
| InsertUser (r : users.row)
| InsertAccount (i userId : string) (accountId : option string)
| InsertSession (r : sessions.row)
| TokenExchange (code : string).

Definition is_write (e : Event) : bool :=
  match e with
  | UpdateUserSubject _ _ | InsertUser _ | InsertAccount _ _ _ | InsertSession _ => true
  | _ => false
  end.

Record World := {
  store : Store;
  journal : list Event;      (* statements and exchanges attempted, oldest first *)
  clock : nat -> Z;          (* successive readings of the system clock, ms *)
  ticks : nat;               (* readings consumed *)
  entropy : nat -> N;        (* successive bytes of crypto.getRandomValues *)
  drawn : nat                (* bytes consumed *)
}.

Definition users_of (w : World) := users_table (store w).
Definition sessions_of (w : World) := sessions_table (store w).
Definition accounts_of (w : World) := accounts_table (store w).

Inductive Error :=
| UNDEFINED_VALUE                 (* postgres: an undefined statement parameter *)
| NoValuesToSet                   (* drizzle: update().set() of undefined only *)
| ConstraintViolation (table : string)
| NotNullViolation (column : string)
| TypeError
| SyntaxError
| FetchFailed.

Inductive Result (A : Type) :=
| Ok (a : A)
| Throw (e : Error).
Arguments Ok {A} a.
Arguments Throw {A} e.

Definition M (A : Type) : Type := World -> Result A * World.

Definition ret {A} (a : A) : M A := fun w => (Ok a, w).

Definition throw {A} (e : Error) : M A := fun w => (Throw e, w).

Definition bind {A B} (m : M A) (k : A -> M B) : M B :=
  fun w => match m w with
           | (Ok a, w') => k a w'
           | (Throw e, w') => (Throw e, w')
           end.

(** [try { m } catch (error) { h }]. *)
Definition try_catch {A} (m : M A) (h : Error -> M A) : M A :=
  fun w => match m w with
           | (Ok a, w') => (Ok a, w')
           | (Throw e, w') => h e w'
           end.

Notation "x <- m ;; k" := (bind m (fun x => k))
  (at level 61, m at next level, right associativity).
Notation "m ;;; k" := (bind m (fun _ => k))
  (at level 61, right associativity).

(** ** World primitives *)

Definition with_store (s : Store) (w : World) : World :=
  {| store := s; journal := journal w; clock := clock w; ticks := ticks w;
     entropy := entropy w; drawn := drawn w |}.

Definition get_store : M Store := fun w => (Ok (store w), w).

Definition put_store (s : Store) : M unit := fun w => (Ok tt, with_store s w).

Definition record (e : Event) (w : World) : World :=
  {| store := store w; journal := (journal w ++ [e])%list; clock := clock w;
     ticks := ticks w; entropy := entropy w; drawn := drawn w |}.

Definition log (e : Event) : M unit := fun w => (Ok tt, record e w).

(** [Date.now()] and [new Date()]: the next reading of the clock. *)
Definition Date_now : M Z :=
  fun w => (Ok (clock w (ticks w)),
            {| store := store w; journal := journal w; clock := clock w;
               ticks := S (ticks w); entropy := entropy w; drawn := drawn w |}).

(** [crypto.getRandomValues(new Uint8Array(length))]. *)
Definition random_bytes (e : nat -> N) (from length : nat) : list N :=
  map (fun i => (e (from + i)%nat mod 256)%N) (seq 0 length).

Definition getRandomValues (length : nat) : M (list N) :=
  fun w => (Ok (random_bytes (entropy w) (drawn w) length),
            {| store := store w; journal := journal w; clock := clock w;
               ticks := ticks w; entropy := entropy w;
               drawn := (drawn w + length)%nat |}).

(** ** The statements the handlers run (drizzle-orm over postgres-js)

    Every statement is entered in the journal when it is attempted.  The
    client built in lib/db/index.ts is postgres-js with its default
    options ([transform.undefined] is not set), which refuses an undefined
    statement parameter with UNDEFINED_VALUE before anything is sent;
    [eq(column, undefined)] binds the undefined value as the parameter.
    Drizzle drops the undefined entries of [set] and refuses a [set] left
    empty; on insert an undefined value stands for the column default.  A
    write computes the table it would produce and commits it when the
    table's constraints hold, and throws otherwise: in a store that
    satisfies its constraints this is the check the database makes. *)

Module Db.

Definition subject_is (v : string) (r : users.row) : bool :=
  match users.xsuaaSubject r with
  | Some x => x =? v
  | None => false
  end.

Definition email_is (v : string) (r : users.row) : bool := users.email r =? v.

Definition id_is (v : string) (r : users.row) : bool := users.id r =? v.

(** [db.select().from(users).where(eq(users.xsuaaSubject, s)).limit(1)
      .then(rows => rows[0])] *)
Definition select_user_by_subject (s : option string) : M (option users.row) :=
  log (SelectUserBySubject s) ;;;
  match s with
  | None => throw UNDEFINED_VALUE
  | Some v => st <- get_store ;; ret (find (subject_is v) (users_table st))
  end.

(** [... .where(eq(users.email, e)).limit(1).then(rows => rows[0])] *)
Definition select_user_by_email (e : string) : M (option users.row) :=
  log (SelectUserByEmail e) ;;;
  st <- get_store ;; ret (find (email_is e) (users_table st)).

(** [... .where(eq(users.id, i)).limit(1).then(rows => rows[0])] *)
Definition select_user_by_id (i : string) : M (option users.row) :=
  log (SelectUserById i) ;;;
  st <- get_store ;; ret (find (id_is i) (users_table st)).

(** [db.select().from(sessions).where(eq(sessions.token, t)).limit(1)
      .then(rows => rows[0])] *)
Definition select_session_by_token (t : string) : M (option sessions.row) :=
  log (SelectSessionByToken t) ;;;
  st <- get_store ;;
  ret (find (fun r => sessions.token r =? t) (sessions_table st)).

(** The users table after [UPDATE users SET xsuaa_subject = s WHERE id = i]. *)
Definition set_subject (i : string) (s : option string) (t : list users.row) :=
  map (fun r => if id_is i r then users.with_subject s r else r) t.

(** [db.update(users).set({ xsuaaSubject: s }).where(eq(users.id, i))] *)
Definition update_user_subject (i : string) (s : option string) : M unit :=
  log (UpdateUserSubject i s) ;;;
  match s with
  | None => throw NoValuesToSet
  | Some _ =>
      st <- get_store ;;
      let t := set_subject i s (users_table st) in
      if users_constraints t
      then put_store {| users_table := t;
                        sessions_table := sessions_table st;
                        accounts_table := accounts_table st |}
      else throw (ConstraintViolation "users")
  end.

(** [db.insert(users).values(r)] *)
Definition insert_user (r : users.row) : M unit :=
  log (InsertUser r) ;;;
  st <- get_store ;;
  let t := (users_table st ++ [r])%list in
  if users_constraints t
  then put_store {| users_table := t;
                    sessions_table := sessions_table st;
                    accounts_table := accounts_table st |}
  else throw (ConstraintViolation "users").

(** [db.insert(accounts).values({ id, userId, accountId, providerId,
      accessToken, refreshToken, accessTokenExpiresAt, createdAt,
      updatedAt })]; [account_id] is NOT NULL and has no default. *)
Definition insert_account (i userId : string) (accountId : option string)
    (providerId : string) (accessToken refreshToken : option string)
    (accessTokenExpiresAt createdAt updatedAt : Z) : M unit :=
  log (InsertAccount i userId accountId) ;;;
  match accountId with
  | None => throw (NotNullViolation "account_id")
  | Some a =>
      st <- get_store ;;
      let t := (accounts_table st ++
               [{| accounts.id := i; accounts.userId := userId;
                   accounts.accountId := a;
                   accounts.providerId := providerId;
                   accounts.accessToken := accessToken;
                   accounts.refreshToken := refreshToken;
                   accounts.accessTokenExpiresAt := Some accessTokenExpiresAt;
                   accounts.createdAt := createdAt;
                   accounts.updatedAt := updatedAt |}])%list in
      if accounts_constraints (users_table st) t
      then put_store {| users_table := users_table st;
                        sessions_table := sessions_table st;
                        accounts_table := t |}
      else throw (ConstraintViolation "accounts")
  end.

(** [db.insert(sessions).values(r)] *)
Definition insert_session (r : sessions.row) : M unit :=
  log (InsertSession r) ;;;
  st <- get_store ;;
  let t := (sessions_table st ++ [r])%list in
  if sessions_constraints (users_table st) t
  then put_store {| users_table := users_table st;
                    sessions_table := t;
                    accounts_table := accounts_table st |}
  else throw (ConstraintViolation "sessions").

End Db.

(** ** lib/env.ts *)

Record XsuaaCredentials := {
  clientid : string;
  clientsecret : string;
  url : string
}.

(** [process.env], with VCAP_SERVICES and VCAP_APPLICATION already parsed
    ([None]: unset, not JSON, or without the key): the [credentials] of the
    entries of [VCAP_SERVICES.xsuaa] and the [uris] of the application. *)
Record ProcessEnv := {
  VCAP_SERVICES_xsuaa : option (list (option XsuaaCredentials));
  VCAP_APPLICATION_uris : option (list string);
  BETTER_AUTH_URL : option string;
  NODE_ENV : option string;
  XSUAA_ENABLED : option string
}.

Definition getXsuaaCredentials (env : ProcessEnv) : option XsuaaCredentials :=
  match VCAP_SERVICES_xsuaa env with
  | Some (Some credentials :: _) => Some credentials
  | _ => None
  end.

Definition getAppUrl (env : ProcessEnv) : string :=
  match VCAP_APPLICATION_uris env with
  | Some (u :: _) =>
      if Js.truthy (Some u) then "https://" ++ u
      else Js.or_str (BETTER_AUTH_URL env) "http://localhost:3000"
  | _ => Js.or_str (BETTER_AUTH_URL env) "http://localhost:3000"
  end.

(** ** Responses *)

Inductive Url :=
| Href (href : string)
| Resolved (path base : string) (searchParams : list (string * string)).

Record Cookie := {
  cookie_name : string;
  cookie_value : string;
  httpOnly : bool;
  secure : bool;
  sameSite : string;
  expires : Z;
  path : string
}.

Record UserView := {
  view_id : string;
  view_name : string;
  view_email : string;
  view_emailVerified : bool;
  view_xsuaaSubject : option string;
  view_image : option string
}.

Inductive Body :=
| ErrorBody (error : string)
| SessionBody (user : UserView) (session_id : string) (session_expiresAt : Z).

Inductive Response :=
| Next (requestHeaders : list (string * string))
| Redirect (to : Url) (setCookie : option Cookie)
| Json (status : Z) (body : Body).

(** ** app/api/auth/xsuaa/route.ts *)

Module Xsuaa.

(** The claims of the identity token the handler reads; the claims are
    strings when they are present. *)
Record Payload := {
  sub : option string;
  user_id : option string;
  email : option string;
  given_name : option string;
  family_name : option string;
  user_name : option string
}.

(** [tokens.id_token] and the outcome of
    [JSON.parse(Buffer.from(idToken.split('.')[1], 'base64').toString())]. *)
Inductive IdToken :=
| NoIdToken
| Undecodable
| Decoded (payload : Payload).

Record Tokens := {
  access_token : option string;
  refresh_token : option string;
  expires_in : option Z;
  id_token : IdToken
}.

(** What [fetch(`${xsuaa.url}/oauth/token`, ...)] and
    [tokenResponse.json()] give. *)
Inductive TokenReply :=
| NetworkError
| HttpError
| HttpOk (body : option Tokens).

Record Request := {
  action : option string;
  code : option string;
  x_forwarded_for : option string;
  x_real_ip : option string;
  user_agent : option string
}.

Definition chars : string :=
  "ABCDEFGHIJKLMNOPQRSTUVWXYZabcdefghijklmnopqrstuvwxyz0123456789".

(** [chars[n]] appended to a string. *)
Definition char_at (s : string) (n : nat) : string :=
  match String.get n s with
  | Some c => String c EmptyString
  | None => "undefined"
  end.

Fixpoint generateId_loop (randomValues : list N) (result : string) : string :=
  match randomValues with
  | [] => result
  | b :: r =>
      generateId_loop r
        (result ++ char_at chars (N.to_nat (b mod N.of_nat (String.length chars))))
  end.

Definition generateId (length : nat) : M string :=
  randomValues <- getRandomValues length ;;
  ret (generateId_loop randomValues "").

(** [tokens.expires_in || 3600]. *)
Definition expires_in_or (v : option Z) (d : Z) : Z :=
  match v with
  | Some n => if (n =? 0)%Z then d else n
  | None => d
  end.

Definition action_is (request : Request) (a : string) : bool :=
  match action request with
  | Some x => x =? a
  | None => false
  end.

(** Lines 77-81. *)
Definition derive_subject (payload : Payload) : option string :=
  Js.or (sub payload) (user_id payload).

Definition derive_email (payload : Payload) : string :=
  Js.or_str (email payload) (Js.template (derive_subject payload) ++ "@sap.xsuaa").

Definition derive_name (payload : Payload) : string :=
  if Js.truthy (given_name payload)
  then Js.trim (Js.template (given_name payload) ++ " "
                ++ Js.template (family_name payload))
  else Js.or_str (user_name payload) (Js.split_head "@" (derive_email payload)).

(** Lines 100-106, the link step. *)
Definition link_user (existingByEmail : users.row) (xsuaaSubject : option string)
  : M users.row :=
  Db.update_user_subject (users.id existingByEmail) xsuaaSubject ;;;
  ret (users.with_subject xsuaaSubject existingByEmail).

(** Lines 107-145, the create step. *)
Definition create_user (tokens : Tokens) (xsuaaSubject : option string)
    (email name : string) : M users.row :=
  userId <- generateId 32 ;;
  now <- Date_now ;;
  let user := {| users.id := userId; users.name := name; users.email := email;
                 users.emailVerified := true; users.image := None;
                 users.xsuaaSubject := xsuaaSubject;
                 users.createdAt := now; users.updatedAt := now |} in
  Db.insert_user user ;;;
  accountRowId <- generateId 32 ;;
  t <- Date_now ;;
  Db.insert_account accountRowId userId xsuaaSubject "xsuaa"
    (access_token tokens) (refresh_token tokens)
    (t + expires_in_or (expires_in tokens) 3600 * 1000)%Z now now ;;;
  ret user.

(** Lines 77-146: derive the fields, then find, link or create. *)
Definition resolve_user (tokens : Tokens) (payload : Payload) : M users.row :=
  let xsuaaSubject := derive_subject payload in
  let email := derive_email payload in
  let name := derive_name payload in
  user <- Db.select_user_by_subject xsuaaSubject ;;
  match user with
  | Some u => ret u
  | None =>
      existingByEmail <- Db.select_user_by_email email ;;
      match existingByEmail with
      | Some e => link_user e xsuaaSubject
      | None => create_user tokens xsuaaSubject email name
      end
  end.

Definition session_cookie (env : ProcessEnv) (sessionToken : string) (expiresAt : Z)
  : Cookie :=
  {| cookie_name := "better-auth.session_token";
     cookie_value := sessionToken;
     httpOnly := true;
     secure := match NODE_ENV env with
               | Some v => v =? "production"
               | None => false
               end;
     sameSite := "lax";
     expires := expiresAt;
     path := "/" |}.

(** Lines 148-177: insert the session and answer with the cookie. *)
Definition create_session (env : ProcessEnv) (request : Request) (user : users.row)
  : M Response :=
  sessionToken <- generateId 32 ;;
  sessionId <- generateId 32 ;;
  t <- Date_now ;;
  let expiresAt := (t + 7 * 24 * 60 * 60 * 1000)%Z in
  createdAt <- Date_now ;;
  updatedAt <- Date_now ;;
  Db.insert_session
    {| sessions.id := sessionId;
       sessions.userId := users.id user;
       sessions.token := sessionToken;
       sessions.expiresAt := expiresAt;
       sessions.ipAddress := Js.or (x_forwarded_for request) (x_real_ip request);
       sessions.userAgent := user_agent request;
       sessions.createdAt := createdAt;
       sessions.updatedAt := updatedAt |} ;;;
  ret (Redirect (Href (getAppUrl env ++ "/dashboard"))
         (Some (session_cookie env sessionToken expiresAt))).

Section Handler.

Variable env : ProcessEnv.

(** The identity provider's token endpoint: the reply to the exchange
    of an authorization code. *)
Variable token_endpoint : XsuaaCredentials -> string -> TokenReply.

Definition login_error (e : string) : Response :=
  Redirect (Href (getAppUrl env ++ "/login?error=" ++ e)) None.

(** Lines 47-181, the body of [try] and its [catch]. *)
Definition callback (xsuaa : XsuaaCredentials) (request : Request) (code : string)
  : M Response :=
  try_catch
    (log (TokenExchange code) ;;;
     match token_endpoint xsuaa code with
     | NetworkError => throw FetchFailed
     | HttpError => ret (login_error "token_exchange_failed")
     | HttpOk None => throw SyntaxError
     | HttpOk (Some tokens) =>
         match id_token tokens with
         | NoIdToken => throw TypeError
         | Undecodable => throw SyntaxError
         | Decoded payload =>
             user <- resolve_user tokens payload ;;
             create_session env request user
         end
     end)
    (fun _ => ret (login_error "callback_failed")).

Definition GET (request : Request) : M Response :=
  match getXsuaaCredentials env with
  | None => ret (login_error "xsuaa_not_configured")
  | Some xsuaa =>
      if action_is request "login" then
        ret (Redirect
               (Resolved "/oauth/authorize" (url xsuaa)
                  [("client_id", clientid xsuaa);
                   ("redirect_uri", getAppUrl env ++ "/api/auth/xsuaa?action=callback");
                   ("response_type", "code");
                   ("scope", "openid")])
               None)
      else if action_is request "callback" then
        match code request with
        | Some c => if c =? "" then ret (login_error "no_code")
                    else callback xsuaa request c
        | None => ret (login_error "no_code")
        end
      else ret (Json 400 (ErrorBody "Invalid action"))
  end.

End Handler.

End Xsuaa.

(** ** app/api/me/route.ts *)

Module Me.

Definition view (user : users.row) : UserView :=
  {| view_id := users.id user;
     view_name := users.name user;
     view_email := users.email user;
     view_emailVerified := users.emailVerified user;
     view_xsuaaSubject := users.xsuaaSubject user;
     view_image := users.image user |}.

(** Lines 13-60, the body of [try], for a token that is a non-empty
    string. *)
Definition lookup (sessionToken : string) : M Response :=
  session <- Db.select_session_by_token sessionToken ;;
  match session with
  | None => ret (Json 401 (ErrorBody "Invalid session"))
  | Some s =>
      now <- Date_now ;;
      if (sessions.expiresAt s <? now)%Z
      then ret (Json 401 (ErrorBody "Session expired"))
      else
        user <- Db.select_user_by_id (sessions.userId s) ;;
        match user with
        | None => ret (Json 401 (ErrorBody "User not found"))
        | Some u =>
            ret (Json 200 (SessionBody (view u) (sessions.id s) (sessions.expiresAt s)))
        end
  end.

(** [cookie] is [request.cookies.get('better-auth.session_token')?.value]. *)
Definition GET (cookie : option string) : M Response :=
  match cookie with
  | Some sessionToken =>
      if sessionToken =? "" then ret (Json 401 (ErrorBody "No session"))
      else try_catch (lookup sessionToken)
                     (fun _ => ret (Json 500 (ErrorBody "Internal error")))
  | None => ret (Json 401 (ErrorBody "No session"))
  end.

End Me.

(** ** middleware.ts *)

Module Gate.

Record Request := {
  pathname : string;
  request_url : string;
  authorization : option string;     (* request.headers.get('authorization') *)
  session_cookie : option string     (* cookies.get('better-auth.session_token')?.value *)
}.

Definition publicRoutes : list string :=
  ["/"; "/login"; "/signup"; "/api/auth"; "/api/health"; "/api/me"].

(** Lines 799-804. *)
Definition is_asset (p : string) : bool :=
  Js.startsWith p "/_next" || Js.startsWith p "/static"
  || Js.includes "." p || (p =? "/favicon.ico").

(** Lines 808-811. *)
Definition is_bearer_api (env : ProcessEnv) (request : Request) : bool :=
  match XSUAA_ENABLED env with
  | Some v => (v =? "true") && Js.truthy (authorization request)
              && Js.startsWith (pathname request) "/api/"
  | None => false
  end.

(** Lines 823-825. *)
Definition isPublicRoute (p : string) : bool :=
  existsb (fun route => (p =? route) || Js.startsWith p (route ++ "/")) publicRoutes.

Definition login_redirect (request : Request) : Response :=
  Redirect (Resolved "/login" (request_url request)
              [("callbackUrl", pathname request)]) None.

Definition middleware (env : ProcessEnv) (request : Request) : Response :=
  if is_asset (pathname request) then Next []
  else if is_bearer_api env request
  then Next [("x-xsuaa-token", Js.template (authorization request))]
  else if isPublicRoute (pathname request) then Next []
  else if negb (Js.truthy (session_cookie request)) then login_redirect request
  else Next [].

End Gate.

(** ** Vocabulary of the statements *)

(** The request reaches the reconciliation: the action is [callback], the
    code [c] is exchanged with success for [tokens], whose identity token
    decodes to [payload]. *)
Definition exchanges (env : ProcessEnv)
    (token_endpoint : XsuaaCredentials -> string -> Xsuaa.TokenReply)
    (request : Xsuaa.Request) (c : string)
    (tokens : Xsuaa.Tokens) (payload : Xsuaa.Payload) : Prop :=
  Xsuaa.action request = Some "callback"
  /\ Xsuaa.code request = Some c
  /\ c <> ""
  /\ exists xsuaa, getXsuaaCredentials env = Some xsuaa
                   /\ token_endpoint xsuaa c = Xsuaa.HttpOk (Some tokens)
                   /\ Xsuaa.id_token tokens = Xsuaa.Decoded payload.

(** The identifier [generateId(length)] returns when it is called after
    [offset] more bytes of the random source have been consumed. *)
Definition id_drawn (w : World) (offset length : nat) : string :=
  Xsuaa.generateId_loop (random_bytes (entropy w) (drawn w + offset) length) "".

(** Two user rows that differ at most in the external subject. *)
Definition same_but_subject (r r' : users.row) : Prop :=
  users.id r' = users.id r
  /\ users.name r' = users.name r
  /\ users.email r' = users.email r
  /\ users.emailVerified r' = users.emailVerified r
  /\ users.image r' = users.image r
  /\ users.createdAt r' = users.createdAt r
  /\ users.updatedAt r' = users.updatedAt r.




(** The computation keeps the store within its constraints, whether it
    returns or throws. *)
Definition preserves {A} (m : M A) : Prop :=
  forall w r w', m w = (r, w') -> store_ok (store w) -> store_ok (store w').

(** The computation does not touch the store. *)
Definition read_only {A} (m : M A) : Prop :=
  forall w r w', m w = (r, w') -> store w' = store w.

(** A relation between the world before and after a computation, kept
    whether it returns or throws. *)
Definition keeps (R : World -> World -> Prop) {A} (m : M A) : Prop :=
  forall w r w', m w = (r, w') -> R w w'.

(** Time and randomness only move forward: the clock and the random source
    are the same streams, read further. *)
Definition advances (w w' : World) : Prop :=
  clock w' = clock w /\ entropy w' = entropy w
  /\ (ticks w <= ticks w')%nat /\ (drawn w <= drawn w')%nat.

(** Nothing that was stored is lost: every user row is still at its place,
    changed at most in its subject, and the sessions and accounts tables
    have only gained rows at their end. *)
Definition grows (w w' : World) : Prop :=
  (forall n r, nth_error (users_of w) n = Some r ->
     exists r', nth_error (users_of w') n = Some r' /\ same_but_subject r r')
  /\ (exists l, sessions_of w' = (sessions_of w ++ l)%list)
  /\ (exists l, accounts_of w' = (accounts_of w ++ l)%list).

(** The journal has only grown, by [d]. *)
Definition journal_grows_by (d : list Event) (w w' : World) : Prop :=
  journal w' = (journal w ++ d)%list.

Definition is_exchange (e : Event) : bool :=
  match e with TokenExchange _ => true | _ => false end.

Definition is_user_write (e : Event) : bool :=
  match e with UpdateUserSubject _ _ | InsertUser _ => true | _ => false end.

Definition is_account_insert (e : Event) : bool :=
  match e with InsertAccount _ _ _ => true | _ => false end.

Definition is_session_insert (e : Event) : bool :=
  match e with InsertSession _ => true | _ => false end.

(** The characters of [A-Za-z0-9]. *)
Definition alphanumeric (c : ascii) : bool :=
  let n := nat_of_ascii c in
  ((65 <=? n) && (n <=? 90) || (97 <=? n) && (n <=? 122)
   || (48 <=? n) && (n <=? 57))%nat.

Fixpoint string_forall (p : ascii -> bool) (s : string) : bool :=
  match s with
  | String c r => p c && string_forall p r
  | EmptyString => true
  end.

(** The 256 values of a byte. *)
Definition all_bytes : list N := map N.of_nat (seq 0 256).

(** The computation enters at most [n] events of the kind [k] in the
    journal, and removes none. *)
Definition spends (k : Event -> bool) (n : nat) {A} (m : M A) : Prop :=
  forall w r w', m w = (r, w') ->
    exists d, journal w' = (journal w ++ d)%list /\ (length (filter k d) <= n)%nat.

(** ** Sample inputs *)

Definition sample_credentials : XsuaaCredentials :=
  {| clientid := "sb-app"; clientsecret := "secret"; url := "https://idp.example" |}.

(** A deployment with an xsuaa binding. *)
Definition sample_env : ProcessEnv :=
  {| VCAP_SERVICES_xsuaa := Some [Some sample_credentials];
     VCAP_APPLICATION_uris := Some ["app.example"];
     BETTER_AUTH_URL := None;
     NODE_ENV := Some "production";
     XSUAA_ENABLED := Some "true" |}.

(** A local run: no VCAP_SERVICES. *)
Definition local_env : ProcessEnv :=
  {| VCAP_SERVICES_xsuaa := None;
     VCAP_APPLICATION_uris := None;
     BETTER_AUTH_URL := None;
     NODE_ENV := None;
     XSUAA_ENABLED := None |}.

Definition ann : users.row :=
  {| users.id := "u-ann"; users.name := "Ann"; users.email := "ann@example.org";
     users.emailVerified := false; users.image := None;
     users.xsuaaSubject := None;
     users.createdAt := 500; users.updatedAt := 500 |}.

Definition ann_session : sessions.row :=
  {| sessions.id := "s-ann"; sessions.userId := "u-ann"; sessions.token := "tok-ann";
     sessions.expiresAt := 1000;
     sessions.ipAddress := None; sessions.userAgent := None;
     sessions.createdAt := 400; sessions.updatedAt := 400 |}.

(** One local user with one session that expires at 1000; the clock reads
    1000, 1001, ...; the random source yields 0, 1, 2, ... *)
Definition sample_world : World :=
  {| store := {| users_table := [ann];
                 sessions_table := [ann_session];
                 accounts_table := [] |};
     journal := [];
     clock := fun n => (1000 + Z.of_nat n)%Z;
     ticks := 0;
     entropy := fun n => N.of_nat n;
     drawn := 0 |}.


Definition payload_of (sub email : option string) : Xsuaa.Payload :=
  {| Xsuaa.sub := sub; Xsuaa.user_id := None; Xsuaa.email := email;
     Xsuaa.given_name := None; Xsuaa.family_name := None;
     Xsuaa.user_name := None |}.

Definition tokens_of (expires_in : option Z) (payload : Xsuaa.Payload) : Xsuaa.Tokens :=
  {| Xsuaa.access_token := Some "access"; Xsuaa.refresh_token := Some "refresh";
     Xsuaa.expires_in := expires_in; Xsuaa.id_token := Xsuaa.Decoded payload |}.

(** An identity provider that answers every code with the same tokens. *)
Definition endpoint_of (tokens : Xsuaa.Tokens)
  : XsuaaCredentials -> string -> Xsuaa.TokenReply :=
  fun _ _ => Xsuaa.HttpOk (Some tokens).

Definition request_of (action code : option string) : Xsuaa.Request :=
  {| Xsuaa.action := action; Xsuaa.code := code;
     Xsuaa.x_forwarded_for := None; Xsuaa.x_real_ip := None;
     Xsuaa.user_agent := None |}.

Definition callback_request : Xsuaa.Request :=
  request_of (Some "callback") (Some "code-1").

Definition gate_request (pathname : string) (authorization cookie : option string)
  : Gate.Request :=
  {| Gate.pathname := pathname;
     Gate.request_url := "https://app.example" ++ pathname;
     Gate.authorization := authorization;
     Gate.session_cookie := cookie |}.

(** * Properties *)

(** ** JavaScript helpers *)

Lemma truthy_some (s : string) : s <> "" -> Js.truthy (Some s) = true.
Proof.
  intro H. unfold Js.truthy. apply String.eqb_neq in H. now rewrite H.
Qed.



Lemma truthy_falsy (v : option string) :
  v = None \/ v = Some "" -> Js.truthy v = false.
Proof. intros [-> | ->]; reflexivity. Qed.






(** ** The session gate *)

Section GateProperties.

Import Gate.

Variable env : ProcessEnv.

Lemma middleware_asset (request : Request) :
  is_asset (pathname request) = true -> middleware env request = Next [].
Proof. intro H. unfold middleware. now rewrite H. Qed.

Lemma middleware_public (request : Request) :
  isPublicRoute (pathname request) = true ->
  exists h, middleware env request = Next h.
Proof.
  intro H. unfold middleware.
  destruct (is_asset _); [now exists [] |].
  destruct (is_bearer_api _ _); [eauto |].
  rewrite H. now exists [].
Qed.

Lemma middleware_protected (request : Request) :
  is_asset (pathname request) = false ->
  is_bearer_api env request = false ->
  isPublicRoute (pathname request) = false ->
  middleware env request =
  if Js.truthy (session_cookie request) then Next [] else login_redirect request.
Proof.
  intros Ha Hb Hp. unfold middleware. rewrite Ha, Hb, Hp.
  now destruct (Js.truthy _).
Qed.

End GateProperties.

(** ** The derived fields *)

Section Derivation.

Import Xsuaa.

Lemma derive_subject_sub (p : Payload) (s : string) :
  sub p = Some s -> s <> "" -> derive_subject p = Some s.
Proof.
  intros H Hs. unfold derive_subject, Js.or. rewrite H.
  now rewrite (truthy_some s Hs).
Qed.

Lemma derive_subject_user_id (p : Payload) :
  sub p = None \/ sub p = Some "" -> derive_subject p = user_id p.
Proof.
  intro H. unfold derive_subject, Js.or. now rewrite (truthy_falsy _ H).
Qed.






End Derivation.

(** ** Tables and their constraints *)




Lemma find_subject_none (t : list users.row) (s : string) :
  (forall x, In x t -> users.xsuaaSubject x <> Some s) ->
  find (Db.subject_is s) t = None.
Proof.
  induction t as [| r t IH]; intro H; simpl; [reflexivity |].
  unfold Db.subject_is at 1.
  destruct (users.xsuaaSubject r) as [x |] eqn:E.
  - destruct (String.eqb_spec x s) as [-> | _].
    + exfalso. apply (H r); [now left | exact E].
    + apply IH. intros y Hy. apply H. now right.
  - apply IH. intros y Hy. apply H. now right.
Qed.

Lemma find_email_none (t : list users.row) (e : string) :
  (forall x, In x t -> users.email x <> e) ->
  find (Db.email_is e) t = None.
Proof.
  induction t as [| r t IH]; intro H; simpl; [reflexivity |].
  unfold Db.email_is at 1.
  destruct (String.eqb_spec (users.email r) e) as [E | _].
  - exfalso. apply (H r); [now left | exact E].
  - apply IH. intros y Hy. apply H. now right.
Qed.




(** *** The update of the link step *)

Lemma set_subject_length (i : string) (s : option string) (t : list users.row) :
  length (Db.set_subject i s t) = length t.
Proof. unfold Db.set_subject. apply length_map. Qed.

Lemma set_subject_ids (i : string) (s : option string) (t : list users.row) :
  map users.id (Db.set_subject i s t) = map users.id t.
Proof.
  unfold Db.set_subject. rewrite map_map. apply map_ext. intro r.
  now destruct (Db.id_is i r).
Qed.








(** Every row of the table is carried over by the update, changed at most
    in its subject, and not at all when its id is another. *)
Lemma set_subject_frame (i : string) (s : option string) (t : list users.row)
    (n : nat) (r : users.row) :
  nth_error t n = Some r ->
  exists r', nth_error (Db.set_subject i s t) n = Some r'
             /\ same_but_subject r r'
             /\ (users.id r <> i -> r' = r)
             /\ (users.id r = i -> users.xsuaaSubject r' = s).
Proof.
  intro H. unfold Db.set_subject. rewrite nth_error_map, H. simpl.
  unfold Db.id_is. destruct (String.eqb_spec (users.id r) i) as [E | N].
  - exists (users.with_subject s r).
    repeat split; try reflexivity. intro N. contradiction.
  - exists r. repeat split; try reflexivity. intro E. contradiction.
Qed.

(** ** The SSO callback, step by step *)

Section Reconciliation.

Import Xsuaa.

Variable env : ProcessEnv.
Variable token_endpoint : XsuaaCredentials -> string -> TokenReply.

Lemma GET_exchanges (request : Request) (c : string) (tokens : Tokens)
    (payload : Payload) (w : World) :
  exchanges env token_endpoint request c tokens payload ->
  GET env token_endpoint request w =
  try_catch
    (log (TokenExchange c) ;;;
     user <- resolve_user tokens payload ;;
     create_session env request user)
    (fun _ => ret (login_error env "callback_failed")) w.
Proof.
  intros [Ha [Hc [Hne [xsuaa [Hx [Ht Hi]]]]]].
  unfold GET, action_is, callback. rewrite Hx, Ha, Hc. simpl.
  apply String.eqb_neq in Hne. rewrite Hne, Ht, Hi. reflexivity.
Qed.

Lemma resolve_user_undefined (tokens : Tokens) (payload : Payload) (w : World) :
  derive_subject payload = None ->
  resolve_user tokens payload w
  = (Throw UNDEFINED_VALUE, record (SelectUserBySubject None) w).
Proof.
  intro H. unfold resolve_user, Db.select_user_by_subject. rewrite H.
  reflexivity.
Qed.



Lemma resolve_user_create (tokens : Tokens) (payload : Payload) (s : string)
    (w : World) :
  derive_subject payload = Some s ->
  find (Db.subject_is s) (users_of w) = None ->
  find (Db.email_is (derive_email payload)) (users_of w) = None ->
  resolve_user tokens payload w
  = create_user tokens (Some s) (derive_email payload) (derive_name payload)
      (record (SelectUserByEmail (derive_email payload))
         (record (SelectUserBySubject (Some s)) w)).
Proof.
  intros H Hs He.
  unfold resolve_user, Db.select_user_by_subject, Db.select_user_by_email.
  rewrite H. unfold bind, log, get_store, ret. cbn [record store].
  fold (users_of w). rewrite Hs. cbn [record store].
  fold (users_of w). rewrite He. reflexivity.
Qed.

(** The link step either commits the update or throws with the store as it
    was. *)
Lemma link_user_run (e : users.row) (s : string) (w : World) :
  link_user e (Some s) w =
  if users_constraints (Db.set_subject (users.id e) (Some s) (users_of w))
  then (Ok (users.with_subject (Some s) e),
        with_store
          {| users_table := Db.set_subject (users.id e) (Some s) (users_of w);
             sessions_table := sessions_of w;
             accounts_table := accounts_of w |}
          (record (UpdateUserSubject (users.id e) (Some s)) w))
  else (Throw (ConstraintViolation "users"),
        record (UpdateUserSubject (users.id e) (Some s)) w).
Proof.
  unfold link_user, Db.update_user_subject, bind, log, get_store, put_store,
    throw, ret.
  cbn [record store]. fold (users_of w).
  now destruct (users_constraints _).
Qed.

(** The session step enters one insert in the journal, for the resolved
    user, and touches neither users nor accounts. *)
Lemma create_session_run (request : Request) (user : users.row) (w : World) :
  exists row res w',
    create_session env request user w = (res, w')
    /\ sessions.userId row = users.id user
    /\ journal w' = (journal w ++ [InsertSession row])%list
    /\ users_of w' = users_of w
    /\ accounts_of w' = accounts_of w
    /\ ((res = Ok (Redirect (Href (getAppUrl env ++ "/dashboard"))
                    (Some (session_cookie env (sessions.token row)
                             (sessions.expiresAt row))))
         /\ sessions_of w' = (sessions_of w ++ [row])%list)
        \/ (res = Throw (ConstraintViolation "sessions")
            /\ sessions_of w' = sessions_of w)).
Proof.
  unfold create_session, generateId, getRandomValues, Date_now,
    Db.insert_session, bind, log, get_store, put_store, throw, ret.
  cbn [record store journal with_store ticks drawn entropy clock].
  match goal with
  | |- context [InsertSession ?r] => exists r
  end.
  destruct (sessions_constraints _ _); do 2 eexists;
    (split; [reflexivity |]); repeat split; auto.
Qed.

(** The create step: the rows it inserts, and how far it gets. *)
Lemma create_user_run (tokens : Tokens) (s e n : string) (w : World) :
  forall user account,
    user = {| users.id := id_drawn w 0 32; users.name := n; users.email := e;
              users.emailVerified := true; users.image := None;
              users.xsuaaSubject := Some s;
              users.createdAt := clock w (ticks w);
              users.updatedAt := clock w (ticks w) |} ->
    account = {| accounts.id := id_drawn w 32 32;
                 accounts.userId := id_drawn w 0 32;
                 accounts.accountId := s;
                 accounts.providerId := "xsuaa";
                 accounts.accessToken := access_token tokens;
                 accounts.refreshToken := refresh_token tokens;
                 accounts.accessTokenExpiresAt :=
                   Some (clock w (S (ticks w))
                         + expires_in_or (expires_in tokens) 3600 * 1000)%Z;
                 accounts.createdAt := clock w (ticks w);
                 accounts.updatedAt := clock w (ticks w) |} ->
    exists res w',
      create_user tokens (Some s) e n w = (res, w')
      /\ sessions_of w' = sessions_of w
      /\ ((users_constraints (users_of w ++ [user]) = false
           /\ res = Throw (ConstraintViolation "users")
           /\ users_of w' = users_of w
           /\ accounts_of w' = accounts_of w)
          \/ (users_constraints (users_of w ++ [user]) = true
              /\ accounts_constraints (users_of w ++ [user])
                   (accounts_of w ++ [account]) = false
              /\ res = Throw (ConstraintViolation "accounts")
              /\ users_of w' = (users_of w ++ [user])%list
              /\ accounts_of w' = accounts_of w)
          \/ (users_constraints (users_of w ++ [user]) = true
              /\ accounts_constraints (users_of w ++ [user])
                   (accounts_of w ++ [account]) = true
              /\ res = Ok user
              /\ users_of w' = (users_of w ++ [user])%list
              /\ accounts_of w' = (accounts_of w ++ [account])%list)).
Proof.
  intros user account -> ->. unfold id_drawn.
  rewrite Nat.add_0_r, (Nat.add_comm (drawn w) 32).
  unfold create_user, generateId, getRandomValues, Date_now, Db.insert_user,
    Db.insert_account, bind, log, get_store, put_store, throw, ret.
  cbn [record store journal with_store ticks drawn entropy clock
       users_table sessions_table accounts_table].
  unfold users_of, accounts_of, sessions_of.
  rewrite (Nat.add_comm (drawn w) 32).
  destruct (users_constraints _) eqn:Eu.
  - cbn [record store journal with_store ticks drawn entropy clock
         users_table sessions_table accounts_table].
    destruct (accounts_constraints _ _) eqn:Ea; do 2 eexists;
      (split; [reflexivity |]); (split; [reflexivity |]).
    + right. right. repeat split; auto.
    + right. left. repeat split; auto.
  - do 2 eexists. split; [reflexivity |]. split; [reflexivity |].
    left. repeat split; auto.
Qed.

End Reconciliation.

(** ** Inserts under the constraints *)




(** ** The SSO callback, end to end *)

Section Callback.

Import Xsuaa.

Variable env : ProcessEnv.
Variable token_endpoint : XsuaaCredentials -> string -> TokenReply.
Variable request : Request.
Variable c : string.
Variable tokens : Tokens.
Variable payload : Payload.
Hypothesis reaches : exchanges env token_endpoint request c tokens payload.

(** How the endpoint's answer follows from the two steps. *)
Lemma GET_run (w : World) :
  GET env token_endpoint request w =
  match resolve_user tokens payload (record (TokenExchange c) w) with
  | (Ok user, w1) =>
      match create_session env request user w1 with
      | (Ok response, w2) => (Ok response, w2)
      | (Throw _, w2) => (Ok (login_error env "callback_failed"), w2)
      end
  | (Throw _, w1) => (Ok (login_error env "callback_failed"), w1)
  end.
Proof.
  rewrite (GET_exchanges _ _ _ _ _ _ _ reaches).
  unfold try_catch, bind, log, ret.
  destruct (resolve_user _ _ _) as [[user | e] w1]; [| reflexivity].
  now destruct (create_session _ _ _ _) as [[response | e] w2].
Qed.

(** The endpoint always answers; nothing escapes its [catch]. *)
Lemma GET_answers (w : World) :
  exists response w', GET env token_endpoint request w = (Ok response, w').
Proof.
  rewrite GET_run.
  destruct (resolve_user _ _ _) as [[user | e] w1]; [| eauto].
  destruct (create_session _ _ _ _) as [[response | e] w2]; eauto.
Qed.

(** After the resolution, the session step decides the answer. *)
Lemma GET_after_resolution (w w1 : World) (user : users.row) :
  resolve_user tokens payload (record (TokenExchange c) w) = (Ok user, w1) ->
  exists row response w',
    GET env token_endpoint request w = (Ok response, w')
    /\ sessions.userId row = users.id user
    /\ journal w' = (journal w1 ++ [InsertSession row])%list
    /\ users_of w' = users_of w1
    /\ accounts_of w' = accounts_of w1
    /\ ((response = Redirect (Href (getAppUrl env ++ "/dashboard"))
                      (Some (session_cookie env (sessions.token row)
                               (sessions.expiresAt row)))
         /\ sessions_of w' = (sessions_of w1 ++ [row])%list)
        \/ (response = login_error env "callback_failed"
            /\ sessions_of w' = sessions_of w1)).
Proof.
  intro H. rewrite GET_run, H.
  destruct (create_session_run env request user w1)
    as [row [res [w' [E [Hu [Hj [Hus [Hac [[-> Hs] | [-> Hs]]]]]]]]]];
    rewrite E; exists row; do 2 eexists; (split; [reflexivity |]);
    repeat split; auto.
Qed.

(** A login with the dashboard redirect went through a resolution. *)
Lemma GET_success (w w' : World) (to : Url) (cookie : Cookie) :
  GET env token_endpoint request w = (Ok (Redirect to (Some cookie)), w') ->
  exists user w1 row,
    resolve_user tokens payload (record (TokenExchange c) w) = (Ok user, w1)
    /\ users_of w' = users_of w1
    /\ accounts_of w' = accounts_of w1
    /\ sessions_of w' = (sessions_of w1 ++ [row])%list
    /\ sessions.userId row = users.id user
    /\ sessions.token row = cookie_value cookie.
Proof.
  intro H.
  destruct (resolve_user tokens payload (record (TokenExchange c) w))
    as [[user | e] w1] eqn:E.
  - destruct (GET_after_resolution w w1 user E)
      as [row [response [w2 [E2 [Hu [_ [Hus [Hac [[-> Hs] | [-> Hs]]]]]]]]]];
      rewrite E2 in H; inversion H; subst.
    exists user, w1, row. repeat split; auto.
  - rewrite GET_run, E in H. discriminate.
Qed.

End Callback.

(** ** The SSO callback: a known subject, and the link *)

Section Linking.

Import Xsuaa.

Variable env : ProcessEnv.
Variable token_endpoint : XsuaaCredentials -> string -> TokenReply.



End Linking.

(** ** Session resolution, step by step *)

Lemma lookup_run (sessionToken : string) (s : sessions.row) (w : World) :
  find (fun r => sessions.token r =? sessionToken) (sessions_of w) = Some s ->
  fst (Me.lookup sessionToken w) =
  if (sessions.expiresAt s <? clock w (ticks w))%Z
  then Ok (Json 401 (ErrorBody "Session expired"))
  else match find (Db.id_is (sessions.userId s)) (users_of w) with
       | Some u => Ok (Json 200 (SessionBody (Me.view u) (sessions.id s)
                                   (sessions.expiresAt s)))
       | None => Ok (Json 401 (ErrorBody "User not found"))
       end.
Proof.
  intro H.
  unfold Me.lookup, Db.select_session_by_token, Db.select_user_by_id, Date_now,
    bind, log, get_store, ret.
  cbn [record store clock ticks]. fold (sessions_of w). rewrite H.
  destruct (_ <? _)%Z; [reflexivity |].
  cbn [record store]. fold (users_of w).
  now destruct (find _ (users_of w)).
Qed.

(** ** The link step leaves the other fields alone *)

Lemma same_but_subject_refl (r : users.row) : same_but_subject r r.
Proof. repeat split. Qed.

(** ** The store stays within its constraints *)

Create HintDb preserve.

Lemma read_only_preserves {A} (m : M A) : read_only m -> preserves m.
Proof. intros H w r w' E Hok. now rewrite (H w r w' E). Qed.

Lemma read_only_ret {A} (a : A) : read_only (ret a).
Proof. intros w r w' E. now inversion E. Qed.

Lemma read_only_throw {A} (e : Error) : read_only (@throw A e).
Proof. intros w r w' E. now inversion E. Qed.

Lemma read_only_log (e : Event) : read_only (log e).
Proof. intros w r w' E. now inversion E. Qed.

Lemma read_only_Date_now : read_only Date_now.
Proof. intros w r w' E. now inversion E. Qed.

Lemma read_only_get_store : read_only get_store.
Proof. intros w r w' E. now inversion E. Qed.

Lemma read_only_getRandomValues (n : nat) : read_only (getRandomValues n).
Proof. intros w r w' E. now inversion E. Qed.

Lemma read_only_bind {A B} (m : M A) (k : A -> M B) :
  read_only m -> (forall a, read_only (k a)) -> read_only (bind m k).
Proof.
  intros Hm Hk w r w' E. unfold bind in E.
  destruct (m w) as [[a | e] w1] eqn:Em.
  - rewrite (Hk a w1 r w' E). exact (Hm w _ w1 Em).
  - inversion E; subst. exact (Hm w _ w' Em).
Qed.

Lemma read_only_try_catch {A} (m : M A) (h : Error -> M A) :
  read_only m -> (forall e, read_only (h e)) -> read_only (try_catch m h).
Proof.
  intros Hm Hh w r w' E. unfold try_catch in E.
  destruct (m w) as [[a | e] w1] eqn:Em.
  - inversion E; subst. exact (Hm w _ w' Em).
  - rewrite (Hh e w1 r w' E). exact (Hm w _ w1 Em).
Qed.

Lemma preserves_bind {A B} (m : M A) (k : A -> M B) :
  preserves m -> (forall a, preserves (k a)) -> preserves (bind m k).
Proof.
  intros Hm Hk w r w' E Hok. unfold bind in E.
  destruct (m w) as [[a | e] w1] eqn:Em.
  - exact (Hk a w1 r w' E (Hm w _ w1 Em Hok)).
  - inversion E; subst. exact (Hm w _ w' Em Hok).
Qed.

Lemma preserves_try_catch {A} (m : M A) (h : Error -> M A) :
  preserves m -> (forall e, preserves (h e)) -> preserves (try_catch m h).
Proof.
  intros Hm Hh w r w' E Hok. unfold try_catch in E.
  destruct (m w) as [[a | e] w1] eqn:Em.
  - inversion E; subst. exact (Hm w _ w' Em Hok).
  - exact (Hh e w1 r w' E (Hm w _ w1 Em Hok)).
Qed.

#[local] Hint Resolve read_only_ret read_only_throw read_only_log
  read_only_Date_now read_only_get_store read_only_getRandomValues : preserve.

Ltac read_only_step :=
  first [ solve [auto with preserve]
        | apply read_only_bind; [| intro]
        | apply read_only_try_catch; [| intro] ].

Lemma read_only_generateId (n : nat) : read_only (Xsuaa.generateId n).
Proof. unfold Xsuaa.generateId. repeat read_only_step. Qed.

Lemma read_only_select_user_by_subject (s : option string) :
  read_only (Db.select_user_by_subject s).
Proof.
  unfold Db.select_user_by_subject. destruct s; repeat read_only_step.
Qed.

Lemma read_only_select_user_by_email (e : string) :
  read_only (Db.select_user_by_email e).
Proof. unfold Db.select_user_by_email. repeat read_only_step. Qed.

Lemma read_only_select_user_by_id (i : string) :
  read_only (Db.select_user_by_id i).
Proof. unfold Db.select_user_by_id. repeat read_only_step. Qed.

Lemma read_only_select_session_by_token (t : string) :
  read_only (Db.select_session_by_token t).
Proof. unfold Db.select_session_by_token. repeat read_only_step. Qed.

#[local] Hint Resolve read_only_generateId read_only_select_user_by_subject
  read_only_select_user_by_email read_only_select_user_by_id
  read_only_select_session_by_token : preserve.

(** Session resolution reads the store and never writes it. *)
Lemma Me_GET_read_only (cookie : option string) : read_only (Me.GET cookie).
Proof.
  unfold Me.GET. destruct cookie as [t |]; [| auto with preserve].
  destruct (t =? ""); [auto with preserve |].
  unfold Me.lookup. repeat read_only_step.
  destruct a as [s |]; repeat read_only_step.
  destruct (_ <? _)%Z; repeat read_only_step.
  destruct a0; repeat read_only_step.
Qed.

(** A reference to a user survives any change of the users table that
    keeps the ids. *)
Lemma references_ids (us us' : list users.row) (i : string) :
  (forall x, In x (map users.id us) -> In x (map users.id us')) ->
  existsb (fun u => users.id u =? i) us = true ->
  existsb (fun u => users.id u =? i) us' = true.
Proof.
  intros H E. apply existsb_exists in E. destruct E as [u [Hu E]].
  apply String.eqb_eq in E.
  assert (In i (map users.id us')) as Hi.
  { apply H. rewrite <- E. now apply in_map. }
  apply in_map_iff in Hi. destruct Hi as [u' [E' Hu']].
  apply existsb_exists. exists u'. split; [exact Hu' |].
  now apply String.eqb_eq.
Qed.

Lemma sessions_constraints_ids (us us' : list users.row) (t : list sessions.row) :
  (forall x, In x (map users.id us) -> In x (map users.id us')) ->
  sessions_constraints us t = true -> sessions_constraints us' t = true.
Proof.
  unfold sessions_constraints. rewrite !andb_true_iff.
  intros H [[Hi Ht] Hf]. repeat split; try assumption.
  rewrite forallb_forall in *. intros r Hr.
  exact (references_ids us us' _ H (Hf r Hr)).
Qed.

Lemma accounts_constraints_ids (us us' : list users.row) (t : list accounts.row) :
  (forall x, In x (map users.id us) -> In x (map users.id us')) ->
  accounts_constraints us t = true -> accounts_constraints us' t = true.
Proof.
  unfold accounts_constraints. rewrite !andb_true_iff.
  intros H [Hi Hf]. split; try assumption.
  rewrite forallb_forall in *. intros r Hr.
  exact (references_ids us us' _ H (Hf r Hr)).
Qed.

Lemma preserves_update_user_subject (i : string) (s : option string) :
  preserves (Db.update_user_subject i s).
Proof.
  intros w r w' E [Hu [Hs Ha]].
  unfold Db.update_user_subject, bind, log, get_store, put_store, throw in E.
  destruct s as [s |]; cbn [record store] in E.
  - destruct (users_constraints _) eqn:C; inversion E; subst;
      cbn [with_store record store]; [| now repeat split].
    repeat split; cbn [users_table sessions_table accounts_table].
    + exact C.
    + apply (sessions_constraints_ids (users_table (store w))); [| exact Hs].
      now rewrite set_subject_ids.
    + apply (accounts_constraints_ids (users_table (store w))); [| exact Ha].
      now rewrite set_subject_ids.
  - inversion E; subst. now repeat split.
Qed.

Lemma preserves_insert_user (u : users.row) : preserves (Db.insert_user u).
Proof.
  intros w r w' E [Hu [Hs Ha]].
  unfold Db.insert_user, bind, log, get_store, put_store, throw in E.
  cbn [record store] in E.
  destruct (users_constraints _) eqn:C; inversion E; subst;
    cbn [with_store record store]; [| now repeat split].
  repeat split; cbn [users_table sessions_table accounts_table].
  - exact C.
  - apply (sessions_constraints_ids (users_table (store w))); [| exact Hs].
    intros x Hx. rewrite map_app. apply in_or_app. now left.
  - apply (accounts_constraints_ids (users_table (store w))); [| exact Ha].
    intros x Hx. rewrite map_app. apply in_or_app. now left.
Qed.

Lemma preserves_insert_account (i userId : string) (accountId : option string)
    (providerId : string) (accessToken refreshToken : option string)
    (accessTokenExpiresAt createdAt updatedAt : Z) :
  preserves (Db.insert_account i userId accountId providerId accessToken
               refreshToken accessTokenExpiresAt createdAt updatedAt).
Proof.
  intros w r w' E [Hu [Hs Ha]].
  unfold Db.insert_account, bind, log, get_store, put_store, throw in E.
  destruct accountId as [a |]; cbn [record store] in E.
  - destruct (accounts_constraints _ _) eqn:C; inversion E; subst;
      cbn [with_store record store]; now repeat split.
  - inversion E; subst. now repeat split.
Qed.

Lemma preserves_insert_session (s : sessions.row) : preserves (Db.insert_session s).
Proof.
  intros w r w' E [Hu [Hs Ha]].
  unfold Db.insert_session, bind, log, get_store, put_store, throw in E.
  cbn [record store] in E.
  destruct (sessions_constraints _ _) eqn:C; inversion E; subst;
    cbn [with_store record store]; now repeat split.
Qed.

#[local] Hint Resolve preserves_update_user_subject preserves_insert_user
  preserves_insert_account preserves_insert_session : preserve.

Ltac preserve_step :=
  first [ solve [auto with preserve]
        | solve [apply read_only_preserves; repeat read_only_step]
        | apply preserves_bind; [| intro]
        | apply preserves_try_catch; [| intro] ].

Lemma preserves_link_user (e : users.row) (s : option string) :
  preserves (Xsuaa.link_user e s).
Proof. unfold Xsuaa.link_user. repeat preserve_step. Qed.

Lemma preserves_create_user (tokens : Xsuaa.Tokens) (s : option string)
    (e n : string) :
  preserves (Xsuaa.create_user tokens s e n).
Proof. unfold Xsuaa.create_user. repeat preserve_step. Qed.

#[local] Hint Resolve preserves_link_user preserves_create_user : preserve.

Lemma preserves_resolve_user (tokens : Xsuaa.Tokens) (payload : Xsuaa.Payload) :
  preserves (Xsuaa.resolve_user tokens payload).
Proof.
  unfold Xsuaa.resolve_user. apply preserves_bind; [preserve_step |].
  intros [u |]; [preserve_step |].
  apply preserves_bind; [preserve_step |].
  intros [e |]; preserve_step.
Qed.

Lemma preserves_create_session (env : ProcessEnv) (request : Xsuaa.Request)
    (user : users.row) :
  preserves (Xsuaa.create_session env request user).
Proof. unfold Xsuaa.create_session. repeat preserve_step. Qed.

#[local] Hint Resolve preserves_resolve_user preserves_create_session : preserve.

(** The SSO endpoint keeps the store within its constraints, whatever the
    request, the identity provider's reply and the random source. *)
Lemma Xsuaa_GET_preserves (env : ProcessEnv)
    (token_endpoint : XsuaaCredentials -> string -> Xsuaa.TokenReply)
    (request : Xsuaa.Request) :
  preserves (Xsuaa.GET env token_endpoint request).
Proof.
  unfold Xsuaa.GET.
  destruct (getXsuaaCredentials env) as [xsuaa |]; [| preserve_step].
  destruct (Xsuaa.action_is request "login"); [preserve_step |].
  destruct (Xsuaa.action_is request "callback"); [| preserve_step].
  destruct (Xsuaa.code request) as [c |]; [| preserve_step].
  destruct (c =? ""); [preserve_step |].
  unfold Xsuaa.callback.
  apply preserves_try_catch; [| intro; preserve_step].
  apply preserves_bind; [preserve_step | intros _].
  destruct (token_endpoint xsuaa c) as [| | [tokens |]]; try preserve_step.
  destruct (Xsuaa.id_token tokens) as [| | payload]; repeat preserve_step.
Qed.

(** The endpoint always answers: no error escapes it. *)
Lemma Xsuaa_GET_total (env : ProcessEnv)
    (token_endpoint : XsuaaCredentials -> string -> Xsuaa.TokenReply)
    (request : Xsuaa.Request) (w : World) :
  exists response w', Xsuaa.GET env token_endpoint request w = (Ok response, w').
Proof.
  unfold Xsuaa.GET, Xsuaa.callback, try_catch, ret.
  destruct (getXsuaaCredentials env) as [xsuaa |]; [| eauto].
  destruct (Xsuaa.action_is request "login"); [eauto |].
  destruct (Xsuaa.action_is request "callback"); [| eauto].
  destruct (Xsuaa.code request) as [c |]; [| eauto].
  destruct (c =? ""); [eauto |].
  match goal with
  | |- context [match ?m w with _ => _ end] => destruct (m w) as [[a | e] w1]
  end; eauto.
Qed.

(** ** The sample inputs are well formed *)

Lemma sample_exchanges (tokens : Xsuaa.Tokens) (payload : Xsuaa.Payload) :
  Xsuaa.id_token tokens = Xsuaa.Decoded payload ->
  exchanges sample_env (endpoint_of tokens) callback_request "code-1" tokens payload.
Proof.
  intro H. unfold exchanges. repeat split; try discriminate.
  exists sample_credentials. repeat split. exact H.
Defined.


(** * The claims *)

(** ** C1 *)

(** C1.  When the decoded claims carry neither [sub] nor [user_id], the
    reconciliation fails: the first lookup is refused for its undefined
    parameter, the endpoint answers with the [callback_failed] redirect, the
    store is what it was, and the journal gains the exchange and the refused
    lookup only, no write. *)
Theorem C1_missing_subject (env : ProcessEnv)
    (token_endpoint : XsuaaCredentials -> string -> Xsuaa.TokenReply)
    (request : Xsuaa.Request) (c : string) (tokens : Xsuaa.Tokens)
    (payload : Xsuaa.Payload) (w : World) :
  exchanges env token_endpoint request c tokens payload ->
  Xsuaa.sub payload = None ->
  Xsuaa.user_id payload = None ->
  fst (Xsuaa.resolve_user tokens payload (record (TokenExchange c) w))
  = Throw UNDEFINED_VALUE
  /\ exists w',
      Xsuaa.GET env token_endpoint request w
      = (Ok (Xsuaa.login_error env "callback_failed"), w')
      /\ store w' = store w
      /\ journal w' = (journal w ++ [TokenExchange c; SelectUserBySubject None])%list
      /\ filter is_write (journal w') = filter is_write (journal w).
Proof.
  intros Hx Hs Hu.
  assert (Xsuaa.derive_subject payload = None) as Hd.
  { unfold Xsuaa.derive_subject, Js.or. now rewrite Hs, Hu. }
  split.
  - now rewrite resolve_user_undefined.
  - rewrite (GET_exchanges _ _ _ _ _ _ _ Hx).
    unfold try_catch, bind, log. rewrite (resolve_user_undefined _ _ _ Hd).
    eexists. split; [reflexivity |]. cbn [record store journal].
    split; [reflexivity |]. rewrite <- !app_assoc. split; [reflexivity |].
    rewrite filter_app. simpl. apply app_nil_r.
Qed.

(** C1 at the claims [{}], in the sample world. *)
Lemma C1_missing_subject_witness :
  exists w',
    Xsuaa.GET sample_env (endpoint_of (tokens_of None (payload_of None None)))
      callback_request sample_world
    = (Ok (Xsuaa.login_error sample_env "callback_failed"), w')
    /\ store w' = store sample_world
    /\ journal w' = [TokenExchange "code-1"; SelectUserBySubject None]
    /\ filter is_write (journal w') = [].
Proof.
  exact (proj2 (C1_missing_subject sample_env
                  (endpoint_of (tokens_of None (payload_of None None)))
                  callback_request "code-1"
                  (tokens_of None (payload_of None None)) (payload_of None None)
                  sample_world
                  (sample_exchanges (tokens_of None (payload_of None None))
                     (payload_of None None) eq_refl)
                  eq_refl eq_refl)).
Defined.

(** ** C2 *)



(** ** C3 *)




(** ** C4 *)

(** C4 as stated fails at the boundary: Ann's session expires at 1000, the
    clock reads 1000, and the session resolves. *)
Lemma C4_counterexample :
  find (fun r => sessions.token r =? "tok-ann") (sessions_of sample_world)
  = Some ann_session
  /\ sessions.expiresAt ann_session = clock sample_world (ticks sample_world)
  /\ fst (Me.GET (Some "tok-ann") sample_world)
     = Ok (Json 200 (SessionBody (Me.view ann) "s-ann" 1000)).
Proof. repeat split. Qed.

(** C4 (amended).  A session found by its token is refused as expired
    exactly when its expiry is strictly before the current time, so it is
    valid exactly when the current time is at most its expiry: one second
    past the expiry the answer is [Session expired], one second before it
    and at the expiry itself the session resolves to its user. *)
Theorem C4_session_validity (sessionToken : string) (s : sessions.row)
    (u : users.row) (w : World) :
  sessionToken <> "" ->
  find (fun r => sessions.token r =? sessionToken) (sessions_of w) = Some s ->
  find (Db.id_is (sessions.userId s)) (users_of w) = Some u ->
  (fst (Me.GET (Some sessionToken) w) = Ok (Json 401 (ErrorBody "Session expired"))
   <-> (sessions.expiresAt s < clock w (ticks w))%Z)
  /\ (fst (Me.GET (Some sessionToken) w)
      = Ok (Json 200 (SessionBody (Me.view u) (sessions.id s) (sessions.expiresAt s)))
      <-> (clock w (ticks w) <= sessions.expiresAt s)%Z)
  /\ (sessions.expiresAt s = (clock w (ticks w) - 1000)%Z ->
      fst (Me.GET (Some sessionToken) w) = Ok (Json 401 (ErrorBody "Session expired")))
  /\ (sessions.expiresAt s = (clock w (ticks w) + 1000)%Z ->
      fst (Me.GET (Some sessionToken) w)
      = Ok (Json 200 (SessionBody (Me.view u) (sessions.id s) (sessions.expiresAt s))))
  /\ (sessions.expiresAt s = clock w (ticks w) ->
      fst (Me.GET (Some sessionToken) w)
      = Ok (Json 200 (SessionBody (Me.view u) (sessions.id s) (sessions.expiresAt s)))).
Proof.
  intros Hne Hs Hu.
  assert (fst (Me.GET (Some sessionToken) w) =
          if (sessions.expiresAt s <? clock w (ticks w))%Z
          then Ok (Json 401 (ErrorBody "Session expired"))
          else Ok (Json 200 (SessionBody (Me.view u) (sessions.id s)
                               (sessions.expiresAt s)))) as E.
  { unfold Me.GET. apply String.eqb_neq in Hne. rewrite Hne.
    unfold try_catch. pose proof (lookup_run _ _ w Hs) as L. rewrite Hu in L.
    destruct (Me.lookup sessionToken w) as [[a | e] w'] eqn:El; simpl in *.
    - exact L.
    - destruct (_ <? _)%Z; discriminate. }
  rewrite E. clear E.
  destruct (Z.ltb_spec (sessions.expiresAt s) (clock w (ticks w))) as [L | L].
  - repeat split; intros; try reflexivity; try discriminate; try lia.
  - repeat split; intros; try reflexivity; try discriminate; try lia.
Qed.

(** C4 for Ann's session, at its expiry. *)
Lemma C4_session_validity_witness :
  fst (Me.GET (Some "tok-ann") sample_world)
  = Ok (Json 200 (SessionBody (Me.view ann) "s-ann" 1000)).
Proof.
  apply (proj2 (proj2 (proj2 (proj2
           (C4_session_validity "tok-ann" ann_session ann sample_world
              ltac:(discriminate) eq_refl eq_refl))))).
  reflexivity.
Defined.

(** ** C5 *)

(** C5 as stated fails on the link path: Ann, a local user, logs in through
    SSO for the first time with her email; the login succeeds, her row
    carries the subject, and the accounts table is still empty. *)
Lemma C5_counterexample :
  users.xsuaaSubject ann = None
  /\ In ann (users_of sample_world)
  /\ Xsuaa.derive_email (payload_of (Some "s-1") (Some "ann@example.org"))
     = users.email ann
  /\ fst (Xsuaa.GET sample_env
            (endpoint_of (tokens_of None
                            (payload_of (Some "s-1") (Some "ann@example.org"))))
            callback_request sample_world)
     = Ok (Redirect (Href "https://app.example/dashboard")
             (Some (Xsuaa.session_cookie sample_env
                      "ABCDEFGHIJKLMNOPQRSTUVWXYZabcdef" 604801000)))
  /\ users_of
       (snd (Xsuaa.GET sample_env
               (endpoint_of (tokens_of None
                               (payload_of (Some "s-1") (Some "ann@example.org"))))
               callback_request sample_world))
     = [users.with_subject (Some "s-1") ann]
  /\ accounts_of
       (snd (Xsuaa.GET sample_env
               (endpoint_of (tokens_of None
                               (payload_of (Some "s-1") (Some "ann@example.org"))))
               callback_request sample_world))
     = [].
Proof. repeat split. now left. Qed.

(** C5 (amended).  After a successful SSO login that provisions a new user
    (no user had the subject or the derived email), the accounts table
    holds a row for provider [xsuaa] that belongs to the new user and
    carries the subject as account id.  (The link step inserts no account
    row, see C9.) *)
Theorem C5_account_after_provisioning (env : ProcessEnv)
    (token_endpoint : XsuaaCredentials -> string -> Xsuaa.TokenReply)
    (request : Xsuaa.Request) (c : string) (tokens : Xsuaa.Tokens)
    (payload : Xsuaa.Payload) (s : string) (w w' : World) (cookie : Cookie) :
  exchanges env token_endpoint request c tokens payload ->
  Xsuaa.derive_subject payload = Some s ->
  (forall x, In x (users_of w) -> users.xsuaaSubject x <> Some s) ->
  (forall x, In x (users_of w) -> users.email x <> Xsuaa.derive_email payload) ->
  Xsuaa.GET env token_endpoint request w
  = (Ok (Redirect (Href (getAppUrl env ++ "/dashboard")) (Some cookie)), w') ->
  exists u a,
    In u (users_of w') /\ users.xsuaaSubject u = Some s
    /\ In a (accounts_of w')
    /\ accounts.providerId a = "xsuaa"
    /\ accounts.userId a = users.id u
    /\ accounts.accountId a = s.
Proof.
  intros Hx Hs Fsub Fem G.
  destruct (GET_success env token_endpoint request c tokens payload Hx
              w w' _ cookie G)
    as [user [w1 [row [R [Hus [Hac _]]]]]].
  rewrite resolve_user_create with (s := s) in R;
    [| exact Hs | now apply find_subject_none | now apply find_email_none].
  match type of R with
  | Xsuaa.create_user _ _ _ _ ?w0 = _ =>
      destruct (create_user_run tokens s (Xsuaa.derive_email payload)
                  (Xsuaa.derive_name payload) w0 _ _ eq_refl eq_refl)
        as [res [w2 [E [_ cases]]]]
  end.
  rewrite E in R. inversion R; subst res w2. clear R.
  destruct cases as [[_ [N _]] | [[_ [_ [N _]]] | [_ [_ [U [Hus1 Hac1]]]]]];
    try discriminate.
  inversion U; subst user. clear U.
  rewrite Hus, Hus1, Hac, Hac1.
  do 2 eexists. split; [apply in_or_app; right; left; reflexivity |].
  split; [reflexivity |].
  split; [apply in_or_app; right; left; reflexivity |].
  repeat split.
Qed.

(** C5 for the new subject [s-2]. *)
Lemma C5_account_after_provisioning_witness :
  exists u a,
    In u (users_of
            (snd (Xsuaa.GET sample_env
                    (endpoint_of (tokens_of None (payload_of (Some "s-2") None)))
                    callback_request sample_world)))
    /\ users.xsuaaSubject u = Some "s-2"
    /\ In a (accounts_of
               (snd (Xsuaa.GET sample_env
                       (endpoint_of (tokens_of None (payload_of (Some "s-2") None)))
                       callback_request sample_world)))
    /\ accounts.providerId a = "xsuaa"
    /\ accounts.userId a = users.id u
    /\ accounts.accountId a = "s-2".
Proof.
  apply (C5_account_after_provisioning sample_env
           (endpoint_of (tokens_of None (payload_of (Some "s-2") None)))
           callback_request "code-1"
           (tokens_of None (payload_of (Some "s-2") None))
           (payload_of (Some "s-2") None) "s-2" sample_world _
           (Xsuaa.session_cookie sample_env
              "CDEFGHIJKLMNOPQRSTUVWXYZabcdefgh" 604801002)
           (sample_exchanges (tokens_of None (payload_of (Some "s-2") None))
              (payload_of (Some "s-2") None) eq_refl)
           eq_refl).
  - intros x [<- | []]. discriminate.
  - intros x [<- | []]. discriminate.
  - vm_compute. reflexivity.
Defined.

(** ** C6 *)




(** ** C7 *)

(** C7 as stated fails in three ways: a path that is not public passes
    without a cookie when it is an asset path, and when it is an [/api/]
    call with an [Authorization] header; and a cookie that is present but
    empty is redirected. *)
Lemma C7_counterexample :
  (Gate.isPublicRoute "/static/app" = false
   /\ Gate.middleware sample_env (gate_request "/static/app" None None) = Next [])
  /\ (Gate.isPublicRoute "/api/orders" = false
      /\ Gate.middleware sample_env
           (gate_request "/api/orders" (Some "Bearer t") None)
         = Next [("x-xsuaa-token", "Bearer t")])
  /\ (Gate.isPublicRoute "/dashboard" = false
      /\ Gate.middleware sample_env (gate_request "/dashboard" None (Some ""))
         = Gate.login_redirect (gate_request "/dashboard" None (Some ""))).
Proof. repeat split. Qed.

(** C7 (amended).  A request on a public route always passes through.  A
    request that is not on a public route, is not an asset path (C8) and is
    not an [/api/] call carrying an [Authorization] header while XSUAA is
    enabled, is redirected to [/login] with its path as [callbackUrl]
    exactly when the session cookie is absent or empty, and passes through
    otherwise, whatever the cookie's value.  The gate is a function of the
    environment and the request alone: it has no access to the store. *)
Theorem C7_session_gate (env : ProcessEnv) (request : Gate.Request) :
  (Gate.isPublicRoute (Gate.pathname request) = true ->
   exists h, Gate.middleware env request = Next h)
  /\ (Gate.isPublicRoute (Gate.pathname request) = false ->
      Gate.is_asset (Gate.pathname request) = false ->
      Gate.is_bearer_api env request = false ->
      (Gate.middleware env request
       = Redirect (Resolved "/login" (Gate.request_url request)
                     [("callbackUrl", Gate.pathname request)]) None
       <-> (Gate.session_cookie request = None
            \/ Gate.session_cookie request = Some ""))
      /\ (Gate.middleware env request = Next []
          <-> exists v, Gate.session_cookie request = Some v /\ v <> "")).
Proof.
  split; [apply middleware_public |].
  intros Hp Ha Hb. rewrite (middleware_protected _ _ Ha Hb Hp).
  unfold Gate.login_redirect.
  destruct (Gate.session_cookie request) as [v |]; simpl.
  - destruct (String.eqb_spec v "") as [-> | N]; simpl.
    + split; split; auto.
      * discriminate.
      * intros [v [E N]]. congruence.
    + split; split; try discriminate.
      * intros [E | E]; congruence.
      * intros _. now exists v.
      * auto.
  - split; split; auto.
    + discriminate.
    + intros [v [E _]]. discriminate.
Qed.

(** ** C8 *)

(** C8.  A request whose path starts with [/_next] or [/static], contains a
    [.], or is [/favicon.ico] passes through untouched, whatever its cookie
    and headers and whether or not the path is public. *)
Theorem C8_assets_pass_through (env : ProcessEnv) (request : Gate.Request) :
  Js.startsWith (Gate.pathname request) "/_next" = true
  \/ Js.startsWith (Gate.pathname request) "/static" = true
  \/ Js.includes "." (Gate.pathname request) = true
  \/ Gate.pathname request = "/favicon.ico" ->
  Gate.middleware env request = Next [].
Proof.
  intro H. apply middleware_asset. unfold Gate.is_asset.
  destruct H as [H | [H | [H | H]]]; rewrite H;
    rewrite ?orb_true_r; reflexivity.
Qed.

(** C8 for [/reports/q3.pdf], which is not public, without a cookie. *)
Lemma C8_assets_pass_through_witness :
  Gate.isPublicRoute "/reports/q3.pdf" = false
  /\ Gate.middleware sample_env (gate_request "/reports/q3.pdf" None None) = Next [].
Proof.
  split; [reflexivity |].
  apply (C8_assets_pass_through sample_env (gate_request "/reports/q3.pdf" None None)).
  right. right. left. reflexivity.
Defined.

(** ** C9 *)

(** C9.  The link step runs one statement, the update of the subject of
    the user found by email.  Whether the update commits or is refused,
    every user row keeps its position, id, name, email, emailVerified,
    image, createdAt and updatedAt; a row with another id is unchanged;
    the sessions and accounts tables are unchanged.  When the step
    succeeds the users table is the old one with the subject set on the
    rows of that id. *)
Theorem C9_link_step_frame (e : users.row) (s : option string) (w : World) :
  exists res w',
    Xsuaa.link_user e s w = (res, w')
    /\ sessions_of w' = sessions_of w
    /\ accounts_of w' = accounts_of w
    /\ journal w' = (journal w ++ [UpdateUserSubject (users.id e) s])%list
    /\ length (users_of w') = length (users_of w)
    /\ (forall n r, nth_error (users_of w) n = Some r ->
          exists r', nth_error (users_of w') n = Some r'
                     /\ same_but_subject r r'
                     /\ (users.id r <> users.id e -> r' = r))
    /\ (forall u, res = Ok u ->
          u = users.with_subject s e
          /\ users_of w' = Db.set_subject (users.id e) s (users_of w)).
Proof.
  destruct s as [s |].
  - rewrite link_user_run.
    destruct (users_constraints _); do 2 eexists; (split; [reflexivity |]);
      repeat split; try discriminate.
    + apply set_subject_length.
    + intros n r H.
      destruct (set_subject_frame (users.id e) (Some s) _ n r H)
        as [r' [H1 [H2 [H3 _]]]].
      now exists r'.
    + now inversion H.
    + intros n r H. exists r. split; [exact H |].
      split; [apply same_but_subject_refl | reflexivity].
  - do 2 eexists. split; [reflexivity |]. repeat split; try discriminate.
    intros n r H. exists r. split; [exact H |].
    split; [apply same_but_subject_refl | reflexivity].
Qed.

(** ** C10 *)

(** C10 as stated fails when the SSO credentials are not available: the
    answer is a redirect, not the 400 body. *)
Lemma C10_counterexample :
  Xsuaa.action_is (request_of None None) "login" = false
  /\ Xsuaa.action_is (request_of None None) "callback" = false
  /\ fst (Xsuaa.GET local_env (endpoint_of (tokens_of None (payload_of None None)))
            (request_of None None) sample_world)
     = Ok (Redirect (Href "http://localhost:3000/login?error=xsuaa_not_configured")
             None).
Proof. repeat split. Qed.

(** C10 (amended).  A request whose [action] is neither [login] nor
    [callback] (or is absent) is answered with the 400 JSON body
    [Invalid action] when the SSO credentials are available, and with the
    [xsuaa_not_configured] redirect when they are not; in both cases the
    world is left as it was: no statement is run and no code exchanged. *)
Theorem C10_invalid_action (env : ProcessEnv)
    (token_endpoint : XsuaaCredentials -> string -> Xsuaa.TokenReply)
    (request : Xsuaa.Request) (w : World) :
  Xsuaa.action_is request "login" = false ->
  Xsuaa.action_is request "callback" = false ->
  Xsuaa.GET env token_endpoint request w
  = (Ok match getXsuaaCredentials env with
        | Some _ => Json 400 (ErrorBody "Invalid action")
        | None => Xsuaa.login_error env "xsuaa_not_configured"
        end, w).
Proof.
  intros Hl Hc. unfold Xsuaa.GET. rewrite Hl, Hc.
  now destruct (getXsuaaCredentials env).
Qed.

(** C10 for [action=logout] in a deployment with credentials. *)
Lemma C10_invalid_action_witness :
  Xsuaa.GET sample_env (endpoint_of (tokens_of None (payload_of None None)))
    (request_of (Some "logout") (Some "code-1")) sample_world
  = (Ok (Json 400 (ErrorBody "Invalid action")), sample_world).
Proof.
  exact (C10_invalid_action sample_env
           (endpoint_of (tokens_of None (payload_of None None)))
           (request_of (Some "logout") (Some "code-1")) sample_world
           eq_refl eq_refl).
Defined.

(** * Further properties *)

(** ** Identifiers *)

Lemma string_length_app (a b : string) :
  String.length (a ++ b) = (String.length a + String.length b)%nat.
Proof. induction a as [| c a IH]; simpl; [reflexivity | now rewrite IH]. Qed.

Lemma string_forall_app (p : ascii -> bool) (a b : string) :
  string_forall p (a ++ b) = string_forall p a && string_forall p b.
Proof.
  induction a as [| c a IH]; simpl; [reflexivity |].
  now rewrite IH, andb_assoc.
Qed.

(** Every index below 62 selects one alphanumeric character. *)
Lemma char_at_chars (n : nat) :
  (n < 62)%nat ->
  exists c, Xsuaa.char_at Xsuaa.chars n = String c EmptyString
            /\ alphanumeric c = true.
Proof.
  intro H.
  do 62 (destruct n as [| n]; [eexists; split; reflexivity |]).
  exfalso. lia.
Qed.

Lemma generateId_loop_format (randomValues : list N) (result : string) :
  String.length (Xsuaa.generateId_loop randomValues result)
  = (String.length result + length randomValues)%nat
  /\ string_forall alphanumeric (Xsuaa.generateId_loop randomValues result)
     = string_forall alphanumeric result.
Proof.
  revert result.
  induction randomValues as [| b r IH]; intro result;
    cbn [Xsuaa.generateId_loop length].
  - split; [lia | reflexivity].
  - destruct (char_at_chars (N.to_nat (b mod N.of_nat (String.length Xsuaa.chars))))
      as [c [E A]].
    { change (N.of_nat (String.length Xsuaa.chars)) with 62%N.
      pose proof (N.mod_lt b 62). lia. }
    destruct (IH (result ++ Xsuaa.char_at Xsuaa.chars
                    (N.to_nat (b mod N.of_nat (String.length Xsuaa.chars)))))
      as [L F].
    rewrite L, F, E, string_length_app, string_forall_app. simpl.
    rewrite A, !andb_true_r. split; [lia | reflexivity].
Qed.

(** X1.  [generateId(length)] returns, whatever the random bytes, a string
    of exactly [length] characters, all of them in [A-Za-z0-9]; it consumes
    [length] bytes of the random source and touches nothing else. *)
Theorem generateId_format (length : nat) (w : World) :
  exists s w',
    Xsuaa.generateId length w = (Ok s, w')
    /\ String.length s = length
    /\ string_forall alphanumeric s = true
    /\ drawn w' = (drawn w + length)%nat
    /\ store w' = store w /\ journal w' = journal w
    /\ ticks w' = ticks w.
Proof.
  unfold Xsuaa.generateId, getRandomValues, bind, ret.
  do 2 eexists. split; [reflexivity |].
  destruct (generateId_loop_format (random_bytes (entropy w) (drawn w) length) "")
    as [L F].
  rewrite L, F. unfold random_bytes. rewrite length_map, length_seq.
  repeat split.
Qed.

(** X2.  The identifiers are not uniform over the alphabet: of the 256
    values of a random byte, five select each of the first eight characters
    of the alphabet ([A] to [H]) and four select each of the other
    fifty-four. *)
Theorem generateId_bias (k : nat) :
  (k < 62)%nat ->
  length (filter (fun b => Xsuaa.generateId_loop [b] ""
                           =? Xsuaa.char_at Xsuaa.chars k) all_bytes)
  = if (k <? 8)%nat then 5%nat else 4%nat.
Proof.
  intro H.
  do 62 (destruct k as [| k]; [vm_compute; reflexivity |]).
  exfalso. lia.
Qed.

Lemma generateId_bias_witness :
  length (filter (fun b => Xsuaa.generateId_loop [b] "" =? "A") all_bytes) = 5%nat
  /\ length (filter (fun b => Xsuaa.generateId_loop [b] "" =? "I") all_bytes) = 4%nat.
Proof.
  split.
  - apply (generateId_bias 0). lia.
  - apply (generateId_bias 8). lia.
Defined.

(** ** Relations kept along a computation *)

Section Keeps.

Variable R : World -> World -> Prop.
Hypothesis R_refl : forall w, R w w.
Hypothesis R_trans : forall a b c, R a b -> R b c -> R a c.

Lemma keeps_ret {A} (a : A) : keeps R (ret a).
Proof. intros w r w' E. inversion E; subst. apply R_refl. Qed.

Lemma keeps_throw {A} (e : Error) : keeps R (@throw A e).
Proof. intros w r w' E. inversion E; subst. apply R_refl. Qed.

Lemma keeps_bind {A B} (m : M A) (k : A -> M B) :
  keeps R m -> (forall a, keeps R (k a)) -> keeps R (bind m k).
Proof.
  intros Hm Hk w r w' E. unfold bind in E.
  destruct (m w) as [[a | e] w1] eqn:Em.
  - exact (R_trans _ _ _ (Hm w _ w1 Em) (Hk a w1 r w' E)).
  - inversion E; subst. exact (Hm w _ w' Em).
Qed.

Lemma keeps_try_catch {A} (m : M A) (h : Error -> M A) :
  keeps R m -> (forall e, keeps R (h e)) -> keeps R (try_catch m h).
Proof.
  intros Hm Hh w r w' E. unfold try_catch in E.
  destruct (m w) as [[a | e] w1] eqn:Em.
  - inversion E; subst. exact (Hm w _ w' Em).
  - exact (R_trans _ _ _ (Hm w _ w1 Em) (Hh e w1 r w' E)).
Qed.

End Keeps.

(** *** Time and randomness *)

Lemma advances_refl (w : World) : advances w w.
Proof. repeat split; auto. Qed.

Lemma advances_trans (a b c : World) : advances a b -> advances b c -> advances a c.
Proof.
  intros [H1 [H2 [H3 H4]]] [K1 [K2 [K3 K4]]].
  repeat split; try congruence; lia.
Qed.

Lemma advances_log (e : Event) : keeps advances (log e).
Proof. intros w r w' E. inversion E; subst. repeat split; simpl; auto. Qed.

Lemma advances_get_store : keeps advances get_store.
Proof. intros w r w' E. inversion E; subst. apply advances_refl. Qed.

Lemma advances_put_store (s : Store) : keeps advances (put_store s).
Proof. intros w r w' E. inversion E; subst. repeat split; simpl; auto. Qed.

Lemma advances_Date_now : keeps advances Date_now.
Proof.
  intros w r w' E. inversion E; subst. repeat split; simpl; auto.
Qed.

Lemma advances_getRandomValues (n : nat) : keeps advances (getRandomValues n).
Proof.
  intros w r w' E. inversion E; subst. repeat split; simpl; auto. lia.
Qed.

Create HintDb advance.

#[local] Hint Resolve advances_log advances_get_store advances_put_store
  advances_Date_now advances_getRandomValues : advance.

Ltac advance_step :=
  first [ solve [auto with advance]
        | apply (keeps_ret advances advances_refl)
        | apply (keeps_throw advances advances_refl)
        | apply (keeps_bind advances advances_trans); [| intro]
        | apply (keeps_try_catch advances advances_trans); [| intro]
        | match goal with
          | |- keeps advances (match ?x with _ => _ end) => destruct x
          | |- keeps advances (if ?x then _ else _) => destruct x
          end ].

Lemma advances_resolve_user (tokens : Xsuaa.Tokens) (payload : Xsuaa.Payload) :
  keeps advances (Xsuaa.resolve_user tokens payload).
Proof.
  unfold Xsuaa.resolve_user, Xsuaa.link_user, Xsuaa.create_user,
    Xsuaa.generateId, Db.select_user_by_subject, Db.select_user_by_email,
    Db.update_user_subject, Db.insert_user, Db.insert_account.
  repeat advance_step.
Qed.

Lemma advances_create_session (env : ProcessEnv) (request : Xsuaa.Request)
    (user : users.row) :
  keeps advances (Xsuaa.create_session env request user).
Proof.
  unfold Xsuaa.create_session, Xsuaa.generateId, Db.insert_session.
  repeat advance_step.
Qed.

(** *** What is entered in the journal *)

Section Spends.

Variable k : Event -> bool.

Lemma spends_ret {A} (a : A) : spends k 0 (ret a).
Proof.
  intros w r w' E. inversion E; subst. exists []. now rewrite app_nil_r.
Qed.

Lemma spends_throw {A} (e : Error) : spends k 0 (@throw A e).
Proof.
  intros w r w' E. inversion E; subst. exists []. now rewrite app_nil_r.
Qed.

Lemma spends_get_store : spends k 0 get_store.
Proof.
  intros w r w' E. inversion E; subst. exists []. now rewrite app_nil_r.
Qed.

Lemma spends_put_store (s : Store) : spends k 0 (put_store s).
Proof.
  intros w r w' E. inversion E; subst. exists []. simpl. now rewrite app_nil_r.
Qed.

Lemma spends_Date_now : spends k 0 Date_now.
Proof.
  intros w r w' E. inversion E; subst. exists []. simpl. now rewrite app_nil_r.
Qed.

Lemma spends_getRandomValues (n : nat) : spends k 0 (getRandomValues n).
Proof.
  intros w r w' E. inversion E; subst. exists []. simpl. now rewrite app_nil_r.
Qed.

Lemma spends_log_other (e : Event) : k e = false -> spends k 0 (log e).
Proof.
  intros H w r w' E. inversion E; subst. exists [e]. simpl. now rewrite H.
Qed.

Lemma spends_log (e : Event) : spends k 1 (log e).
Proof.
  intros w r w' E. inversion E; subst. exists [e]. simpl.
  split; [reflexivity |]. destruct (k e); simpl; lia.
Qed.

Lemma spends_weaken {A} (a b : nat) (m : M A) :
  (a <= b)%nat -> spends k a m -> spends k b m.
Proof.
  intros H Hm w r w' E. destruct (Hm w r w' E) as [d [Hd Hn]].
  exists d. split; [exact Hd | lia].
Qed.

Lemma spends_bind {A B} (a b : nat) (m : M A) (f : A -> M B) :
  spends k a m -> (forall x, spends k b (f x)) -> spends k (a + b) (bind m f).
Proof.
  intros Hm Hf w r w' E. unfold bind in E.
  destruct (m w) as [[x | e] w1] eqn:Em.
  - destruct (Hm w _ w1 Em) as [d1 [Hd1 Hn1]].
    destruct (Hf x w1 r w' E) as [d2 [Hd2 Hn2]].
    exists (d1 ++ d2)%list. rewrite Hd2, Hd1, app_assoc, filter_app, length_app.
    split; [reflexivity | lia].
  - inversion E; subst. destruct (Hm w _ w' Em) as [d1 [Hd1 Hn1]].
    exists d1. split; [exact Hd1 | lia].
Qed.

Lemma spends_try_catch {A} (a b : nat) (m : M A) (h : Error -> M A) :
  spends k a m -> (forall e, spends k b (h e)) ->
  spends k (a + b) (try_catch m h).
Proof.
  intros Hm Hh w r w' E. unfold try_catch in E.
  destruct (m w) as [[x | e] w1] eqn:Em.
  - inversion E; subst. destruct (Hm w _ w' Em) as [d1 [Hd1 Hn1]].
    exists d1. split; [exact Hd1 | lia].
  - destruct (Hm w _ w1 Em) as [d1 [Hd1 Hn1]].
    destruct (Hh e w1 r w' E) as [d2 [Hd2 Hn2]].
    exists (d1 ++ d2)%list. rewrite Hd2, Hd1, app_assoc, filter_app, length_app.
    split; [reflexivity | lia].
Qed.

End Spends.

Ltac spend0 :=
  first [ apply spends_ret | apply spends_throw | apply spends_get_store
        | apply spends_put_store | apply spends_Date_now
        | apply spends_getRandomValues
        | solve [apply spends_log_other; reflexivity]
        | solve [apply (spends_bind _ 0 0); [spend0 | intro; spend0]]
        | solve [apply (spends_try_catch _ 0 0); [spend0 | intro; spend0]]
        | match goal with
          | |- spends _ _ (match ?x with _ => _ end) => solve [destruct x; spend0]
          | |- spends _ _ (if ?x then _ else _) => solve [destruct x; spend0]
          end ].

Ltac spend1 :=
  first [ solve [apply (spends_weaken _ 0 1); [lia | spend0]]
        | apply spends_log
        | solve [apply (spends_bind _ 0 1); [spend0 | intro; spend1]]
        | solve [apply (spends_bind _ 1 0); [spend1 | intro; spend0]]
        | solve [apply (spends_try_catch _ 1 0); [spend1 | intro; spend0]]
        | match goal with
          | |- spends _ _ (match ?x with _ => _ end) => solve [destruct x; spend1]
          | |- spends _ _ (if ?x then _ else _) => solve [destruct x; spend1]
          end ].

Ltac unfold_handlers :=
  unfold Xsuaa.GET, Xsuaa.callback, Xsuaa.resolve_user, Xsuaa.link_user,
    Xsuaa.create_user, Xsuaa.create_session, Xsuaa.generateId,
    Db.select_user_by_subject, Db.select_user_by_email,
    Db.update_user_subject, Db.insert_user, Db.insert_account,
    Db.insert_session.

Lemma GET_spends_exchange (env : ProcessEnv)
    (token_endpoint : XsuaaCredentials -> string -> Xsuaa.TokenReply)
    (request : Xsuaa.Request) :
  spends is_exchange 1 (Xsuaa.GET env token_endpoint request).
Proof. unfold_handlers. spend1. Qed.

Lemma GET_spends_user_write (env : ProcessEnv)
    (token_endpoint : XsuaaCredentials -> string -> Xsuaa.TokenReply)
    (request : Xsuaa.Request) :
  spends is_user_write 1 (Xsuaa.GET env token_endpoint request).
Proof. unfold_handlers. spend1. Qed.

Lemma GET_spends_account_insert (env : ProcessEnv)
    (token_endpoint : XsuaaCredentials -> string -> Xsuaa.TokenReply)
    (request : Xsuaa.Request) :
  spends is_account_insert 1 (Xsuaa.GET env token_endpoint request).
Proof. unfold_handlers. spend1. Qed.

Lemma GET_spends_session_insert (env : ProcessEnv)
    (token_endpoint : XsuaaCredentials -> string -> Xsuaa.TokenReply)
    (request : Xsuaa.Request) :
  spends is_session_insert 1 (Xsuaa.GET env token_endpoint request).
Proof. unfold_handlers. spend1. Qed.

Lemma starts_with_log {A} (k : Event -> bool) (n : nat) (e : Event)
    (f : unit -> M A) (h : Error -> M A) :
  (forall x, spends k n (f x)) -> (forall err, spends k 0 (h err)) ->
  forall w r w', try_catch (bind (log e) f) h w = (r, w') ->
    exists d, journal w' = (journal w ++ e :: d)%list.
Proof.
  intros Hf Hh w r w' E. unfold try_catch, bind, log in E.
  destruct (f tt (record e w)) as [[x | err] w1] eqn:Ef.
  - inversion E; subst. destruct (Hf tt _ _ _ Ef) as [d [Hd _]].
    exists d. rewrite Hd. simpl. now rewrite <- app_assoc.
  - destruct (Hf tt _ _ _ Ef) as [d [Hd _]].
    destruct (Hh err _ _ _ E) as [d2 [Hd2 _]].
    exists (d ++ d2)%list. rewrite Hd2, Hd. simpl. now rewrite <- !app_assoc.
Qed.

(** X3.  Whatever the request, the identity provider's reply and the
    store, one call of the SSO endpoint exchanges at most one code, writes
    the users table at most once (one insert or one update), and inserts
    at most one account and at most one session.  It either leaves the
    world exactly as it was, or begins by exchanging the request's code:
    no statement reaches the store before the exchange. *)
Theorem GET_effects (env : ProcessEnv)
    (token_endpoint : XsuaaCredentials -> string -> Xsuaa.TokenReply)
    (request : Xsuaa.Request) (w : World) :
  exists d,
    journal (snd (Xsuaa.GET env token_endpoint request w)) = (journal w ++ d)%list
    /\ (length (filter is_exchange d) <= 1)%nat
    /\ (length (filter is_user_write d) <= 1)%nat
    /\ (length (filter is_account_insert d) <= 1)%nat
    /\ (length (filter is_session_insert d) <= 1)%nat
    /\ ((d = [] /\ snd (Xsuaa.GET env token_endpoint request w) = w)
        \/ exists c d', d = TokenExchange c :: d' /\ Xsuaa.code request = Some c).
Proof.
  destruct (Xsuaa.GET env token_endpoint request w) as [r w'] eqn:E.
  cbn [snd].
  destruct (GET_spends_exchange env token_endpoint request w r w' E) as [d [Hd H1]].
  destruct (GET_spends_user_write env token_endpoint request w r w' E) as [d2 [Hd2 H2]].
  destruct (GET_spends_account_insert env token_endpoint request w r w' E)
    as [d3 [Hd3 H3]].
  destruct (GET_spends_session_insert env token_endpoint request w r w' E)
    as [d4 [Hd4 H4]].
  assert (d2 = d) as -> by (apply (app_inv_head (journal w)); congruence).
  assert (d3 = d) as -> by (apply (app_inv_head (journal w)); congruence).
  assert (d4 = d) as -> by (apply (app_inv_head (journal w)); congruence).
  exists d. repeat (split; [assumption |]).
  assert (w' = w -> d = [] /\ w' = w) as Same.
  { intros ->. split; [| reflexivity].
    apply (app_inv_head (journal w)). now rewrite app_nil_r. }
  unfold Xsuaa.GET in E.
  destruct (getXsuaaCredentials env) as [xsuaa |];
    [| left; apply Same; now inversion E].
  destruct (Xsuaa.action_is request "login");
    [left; apply Same; now inversion E |].
  destruct (Xsuaa.action_is request "callback");
    [| left; apply Same; now inversion E].
  destruct (Xsuaa.code request) as [c |];
    [| left; apply Same; now inversion E].
  destruct (c =? ""); [left; apply Same; now inversion E |].
  right. exists c. unfold Xsuaa.callback in E.
  apply (starts_with_log is_exchange 0) in E.
  - destruct E as [d' Hd']. exists d'. split; [| reflexivity].
    apply (app_inv_head (journal w)). congruence.
  - intro. unfold_handlers. spend0.
  - intro. spend0.
Qed.

(** ** Nothing stored is lost *)

Lemma same_but_subject_trans (a b c : users.row) :
  same_but_subject a b -> same_but_subject b c -> same_but_subject a c.
Proof.
  unfold same_but_subject. intros H K.
  repeat match goal with H : _ /\ _ |- _ => destruct H end.
  repeat split; congruence.
Qed.

Lemma grows_refl (w : World) : grows w w.
Proof.
  split; [| split].
  - intros n r H. exists r. split; [exact H | apply same_but_subject_refl].
  - exists []. now rewrite app_nil_r.
  - exists []. now rewrite app_nil_r.
Qed.

Lemma grows_trans (a b c : World) : grows a b -> grows b c -> grows a c.
Proof.
  intros [U1 [[s1 S1] [a1 A1]]] [U2 [[s2 S2] [a2 A2]]]. split; [| split].
  - intros n r H. destruct (U1 n r H) as [r1 [H1 E1]].
    destruct (U2 n r1 H1) as [r2 [H2 E2]]. exists r2.
    split; [exact H2 | exact (same_but_subject_trans _ _ _ E1 E2)].
  - exists (s1 ++ s2)%list. now rewrite S2, S1, app_assoc.
  - exists (a1 ++ a2)%list. now rewrite A2, A1, app_assoc.
Qed.

Lemma grows_same_store (w w' : World) : store w' = store w -> grows w w'.
Proof.
  intro S. unfold grows, users_of, sessions_of, accounts_of. rewrite S.
  apply grows_refl.
Qed.

Lemma read_only_grows {A} (m : M A) : read_only m -> keeps grows m.
Proof. intros H w r w' E. apply grows_same_store. exact (H w r w' E). Qed.

Lemma grows_update_user_subject (i : string) (s : option string) :
  keeps grows (Db.update_user_subject i s).
Proof.
  intros w r w' E.
  unfold Db.update_user_subject, bind, log, get_store, put_store, throw in E.
  destruct s as [s |]; cbn [record store] in E.
  - destruct (users_constraints _); inversion E; subst; [| now apply grows_same_store].
    split; [| split].
    + intros n r0 H.
      destruct (set_subject_frame i (Some s) _ n r0 H) as [r' [H1 [H2 _]]].
      now exists r'.
    + exists []. unfold sessions_of. simpl. now rewrite app_nil_r.
    + exists []. unfold accounts_of. simpl. now rewrite app_nil_r.
  - inversion E; subst. now apply grows_same_store.
Qed.

Lemma nth_error_app_left {A} (l l' : list A) (n : nat) (x : A) :
  nth_error l n = Some x -> nth_error (l ++ l') n = Some x.
Proof.
  intro H. rewrite nth_error_app1; [exact H |].
  apply nth_error_Some. congruence.
Qed.

Lemma grows_insert_user (u : users.row) : keeps grows (Db.insert_user u).
Proof.
  intros w r w' E.
  unfold Db.insert_user, bind, log, get_store, put_store, throw in E.
  cbn [record store] in E.
  destruct (users_constraints _); inversion E; subst; [| now apply grows_same_store].
  split; [| split].
  - intros n r0 H. exists r0. split; [| apply same_but_subject_refl].
    unfold users_of. simpl. now apply nth_error_app_left.
  - exists []. unfold sessions_of. simpl. now rewrite app_nil_r.
  - exists []. unfold accounts_of. simpl. now rewrite app_nil_r.
Qed.

Lemma grows_insert_account (i userId : string) (accountId : option string)
    (providerId : string) (accessToken refreshToken : option string)
    (accessTokenExpiresAt createdAt updatedAt : Z) :
  keeps grows (Db.insert_account i userId accountId providerId accessToken
                 refreshToken accessTokenExpiresAt createdAt updatedAt).
Proof.
  intros w r w' E.
  unfold Db.insert_account, bind, log, get_store, put_store, throw in E.
  destruct accountId as [a |]; cbn [record store] in E.
  - destruct (accounts_constraints _ _); inversion E; subst;
      [| now apply grows_same_store].
    split; [| split].
    + intros n r0 H. exists r0. split; [exact H | apply same_but_subject_refl].
    + exists []. unfold sessions_of. simpl. now rewrite app_nil_r.
    + eexists. unfold accounts_of. simpl. reflexivity.
  - inversion E; subst. now apply grows_same_store.
Qed.

Lemma grows_insert_session (s : sessions.row) : keeps grows (Db.insert_session s).
Proof.
  intros w r w' E.
  unfold Db.insert_session, bind, log, get_store, put_store, throw in E.
  cbn [record store] in E.
  destruct (sessions_constraints _ _); inversion E; subst;
    [| now apply grows_same_store].
  split; [| split].
  - intros n r0 H. exists r0. split; [exact H | apply same_but_subject_refl].
  - eexists. unfold sessions_of. simpl. reflexivity.
  - exists []. unfold accounts_of. simpl. now rewrite app_nil_r.
Qed.

Create HintDb grow.

#[local] Hint Resolve grows_update_user_subject grows_insert_user
  grows_insert_account grows_insert_session : grow.

Ltac grow_step :=
  first [ solve [auto with grow]
        | solve [apply read_only_grows; repeat read_only_step]
        | apply (keeps_bind grows grows_trans); [| intro]
        | apply (keeps_try_catch grows grows_trans); [| intro]
        | match goal with
          | |- keeps grows (match ?x with _ => _ end) => destruct x
          | |- keeps grows (if ?x then _ else _) => destruct x
          end ].

(** X5.  Whatever the request and the reply of the identity provider, a
    call of the SSO endpoint loses nothing that was stored: every user row
    is still at its place with the same id, name, email, emailVerified,
    image and timestamps (only its subject may differ), and the sessions
    and accounts tables are the old ones followed by the rows the call
    inserted. *)
Theorem GET_grows (env : ProcessEnv)
    (token_endpoint : XsuaaCredentials -> string -> Xsuaa.TokenReply)
    (request : Xsuaa.Request) (w : World) :
  grows w (snd (Xsuaa.GET env token_endpoint request w)).
Proof.
  assert (keeps grows (Xsuaa.GET env token_endpoint request)) as K.
  { unfold Xsuaa.GET, Xsuaa.callback, Xsuaa.resolve_user, Xsuaa.link_user,
      Xsuaa.create_user, Xsuaa.create_session.
    repeat grow_step. }
  destruct (Xsuaa.GET env token_endpoint request w) as [r w'] eqn:E.
  exact (K w r w' E).
Qed.
